(** * gps_history tools: a shallow embedding and its verification

    The repository's tool scripts are small Python programs:

    - [generate_google_json.py] writes a synthetic Google location history,
    - [gen_github_changes.py] cuts one version's section out of a changelog,
    - [google_json_unique_keys.py] (two copies, under [tool/] and [tools/])
      lists the distinct first words of the lines of a file.

    Python integers are unbounded and are modelled by [Z]; Python's [//] and
    [%] are floor division and its remainder, which is what [Z.div] and
    [Z.modulo] compute.  Python floats are idealised as real numbers; the
    statements below rely on no more of their values than [sin 0 = 0],
    [cos 0 = 1] and that a sine or cosine lies between -1 and 1, which
    hold for the floats as well.  Text is [string]; a file opened for
    writing is the list of the strings written to it, in order. *)

From Stdlib Require Import ZArith List String Ascii Bool Lia Reals Lra.
From Stdlib Require Import DecimalString DecimalPos Sorted Permutation.
Import ListNotations.

Local Open Scope Z_scope.

(** ** Python runtime: exceptions, strings, sequences *)

Module Py.

Inductive exn : Type :=
| UnboundLocalError (name : string)
| IndexError
| KeyError (key : string)
| ValueError
| FileNotFoundError (path : string).

(** The value of an expression, or the exception it raises. *)
Inductive result (A : Type) : Type :=
| Ok (a : A)
| Err (e : exn).
Arguments Ok {A} a.
Arguments Err {A} e.

Definition bind {A B : Type} (r : result A) (k : A -> result B) : result B :=
  match r with
  | Ok a => k a
  | Err e => Err e
  end.

Notation "'do' x <- r ;; k" := (bind r (fun x => k))
  (at level 10, x name, r at level 100, k at level 200).

(** The two characters that a string literal of this file cannot hold. *)
Definition nl : string := String (ascii_of_nat 10) EmptyString.
Definition dq : string := String (ascii_of_nat 34) EmptyString.

(** [str(n)] for an integer. *)
Definition str (n : Z) : string := NilZero.string_of_int (Z.to_int n).

(** [len(s)]. *)
Definition len (s : string) : Z := Z.of_nat (String.length s).

(** [s.startswith(p)]. *)
Definition startswith (s p : string) : bool := String.prefix p s.

(** [l[k]]: a negative index counts from the end, and an index out of
    range raises. *)
Definition getitem {A : Type} (l : list A) (k : Z) : result A :=
  let n := Z.of_nat (List.length l) in
  let k' := if k <? 0 then k + n else k in
  if (0 <=? k') && (k' <? n) then
    match nth_error l (Z.to_nat k') with
    | Some x => Ok x
    | None => Err IndexError
    end
  else Err IndexError.

(** [round(x)] for a float: to the nearest integer, a tie to the even one. *)
Definition round (x : R) : Z :=
  let f := Zfloor x in
  let d := (x - IZR f)%R in
  if Rlt_dec d (1 / 2) then f
  else if Rlt_dec (1 / 2) d then f + 1
  else if Z.even f then f else f + 1.

(** [round(n)] for an integer is the integer. *)
Definition round_int (n : Z) : Z := n.

(** Keyword arguments of [str.format]. *)
Definition kwargs : Type := list (string * string).

Fixpoint lookup (key : string) (kw : kwargs) : result string :=
  match kw with
  | [] => Err (KeyError key)
  | (k, v) :: kw' => if String.eqb k key then Ok v else lookup key kw'
  end.

Definition cons_char (c : ascii) (r : result string) : result string :=
  do s <- r ;; Ok (String c s).

(** [tpl.format] with positional arguments [args] and keyword arguments
    [kw], for the replacement fields the scripts use:
    [{name}] is looked up in the keyword arguments, [{}] takes the next
    positional argument, [{{] and [}}] stand for a brace.  [field] is
    [Some acc] while the characters of a field name are being read. *)
Fixpoint format_from (tpl : string) (field : option string)
    (args : list string) (kw : kwargs) : result string :=
  match field with
  | Some name =>
      match tpl with
      | EmptyString => Err ValueError
      | String c rest =>
          if Ascii.eqb c "}" then
            match name with
            | EmptyString =>
                match args with
                | [] => Err IndexError
                | a :: args' =>
                    do s <- format_from rest None args' kw ;; Ok (a ++ s)%string
                end
            | _ =>
                do v <- lookup name kw ;;
                do s <- format_from rest None args kw ;; Ok (v ++ s)%string
            end
          else
            format_from rest (Some (name ++ String c EmptyString)%string) args kw
      end
  | None =>
      match tpl with
      | EmptyString => Ok EmptyString
      | String c rest =>
          if Ascii.eqb c "{" then
            match rest with
            | String "{" rest' => cons_char "{" (format_from rest' None args kw)
            | _ => format_from rest (Some EmptyString) args kw
            end
          else if Ascii.eqb c "}" then
            match rest with
            | String "}" rest' => cons_char "}" (format_from rest' None args kw)
            | _ => Err ValueError
            end
          else cons_char c (format_from rest None args kw)
      end
  end.

Definition format (tpl : string) (args : list string) (kw : kwargs)
  : result string :=
  format_from tpl None args kw.

(** How a script or a function ends: it runs to its end, or an exception
    escapes.  Either way the state reached (what was written so far) is
    kept. *)
Inductive outcome (S : Type) : Type :=
| Finished (st : S)
| Raised (e : exn) (st : S).
Arguments Finished {S} st.
Arguments Raised {S} e st.

(** The files that can be opened for reading, with their text as text mode
    delivers it: each line ends with the newline character. *)
Definition files : Type := string -> option string.

Definition is_newline (c : ascii) : bool := Ascii.eqb c (ascii_of_nat 10).

(** [f.readlines()]: the text cut after each newline, the newline kept.
    [line] holds the characters of the line being read. *)
Fixpoint readlines_from (s : string) (line : string) : list string :=
  match s with
  | EmptyString =>
      match line with
      | EmptyString => []
      | _ => [line]
      end
  | String c rest =>
      let line := (line ++ String c EmptyString)%string in
      if is_newline c then line :: readlines_from rest EmptyString
      else readlines_from rest line
  end.

Definition readlines (s : string) : list string :=
  readlines_from s EmptyString.

(** [len(l)] for a list. *)
Definition len_list {A : Type} (l : list A) : Z := Z.of_nat (List.length l).

(** [re.compile(c+).findall(s)] for a character class [c]: the maximal runs
    of characters of the class, from left to right.  [run] holds the run
    being read. *)
Definition flush (run : string) : list string :=
  match run with
  | EmptyString => []
  | _ => [run]
  end.

Fixpoint findall_from (cls : ascii -> bool) (s : string) (run : string)
  : list string :=
  match s with
  | EmptyString => flush run
  | String c rest =>
      if cls c then findall_from cls rest (run ++ String c EmptyString)%string
      else (flush run ++ findall_from cls rest EmptyString)%list
  end.

Definition findall (cls : ascii -> bool) (s : string) : list string :=
  findall_from cls s EmptyString.

(** A [set] of strings, as a list without repetition. *)
Definition set_add (x : string) (s : list string) : list string :=
  if existsb (String.eqb x) s then s else x :: s.

(** [sorted(s)] for strings, which Python orders by code point. *)
Fixpoint insert_sorted (x : string) (l : list string) : list string :=
  match l with
  | [] => [x]
  | y :: l' => if String.leb x y then x :: l else y :: insert_sorted x l'
  end.

Definition sorted (l : list string) : list string :=
  fold_right insert_sorted [] l.

(** The ASCII letters, digits and underscore: what [\w] matches among the
    first 128 characters. *)
Definition ascii_word (c : ascii) : bool :=
  let n := nat_of_ascii c in
  ((48 <=? n) && (n <=? 57) || (65 <=? n) && (n <=? 90)
   || (97 <=? n) && (n <=? 122) || (n =? 95))%nat.

End Py.

Import Py.

(** ** generate_google_json.py *)

Module GenerateGoogleJson.

(** The configuration options at the head of the script. *)
Record config : Type := {
  filename : string;
  nr_points : Z;
  time_between_points_s : Z;
  start_time : Z
}.

(** The values the script sets them to. *)
Definition default : config := {|
  filename := "google_history.json";
  nr_points := 1000000;
  time_between_points_s := 60;
  start_time := 1379129160146
|}.

Section Rules.

Variable cfg : config.

Definition accuracy_rule (index : Z) : Z := 20 * (index mod 30).

Definition altitude_rule (index : Z) : R := (300 * sin (IZR index))%R.

Definition latitude_rule (index : Z) : R :=
  (IZR (10000000 * 90) * sin (IZR index / 1000))%R.

Definition longitude_rule (index : Z) : R :=
  (IZR (10000000 * 180) * cos (IZR index / 1000))%R.

Definition time_activity_rule (index : Z) : Z :=
  time_between_points_s cfg / (1 + (index mod 3)).

(** The local variable [extra_delay] of [time_rule]. *)
Definition extra_delay (index : Z) : Z :=
  if negb (index mod 50 =? 0) then 0
  else time_between_points_s cfg * 100 * (index mod 10).

Definition time_rule (index : Z) : Z :=
  index * 1000 * time_between_points_s cfg + extra_delay index.

Definition vertical_accuracy_rule (index : Z) : Z :=
  accuracy_rule index / 10.

End Rules.

(** *** The three templates *)

Definition q (s : string) : string := (dq ++ s ++ dq)%string.

(** A triple-quoted literal, line by line. *)
Definition text (lines : list string) : string := String.concat nl lines.

Definition pattern_accuracy_only : string := text [
  EmptyString;
  "        " ++ q "timestampMs" ++ ": " ++ q "{time}" ++ ",";
  "        " ++ q "latitudeE7" ++ ": {latitude},";
  "        " ++ q "longitudeE7" ++ ": {longitude},";
  "        " ++ q "accuracy" ++ ": {accuracy}";
  EmptyString
]%string.

Definition pattern_activity : string := text [
  EmptyString;
  "        " ++ q "timestampMs" ++ ": " ++ q "{time}" ++ ",";
  "        " ++ q "latitudeE7" ++ ": {latitude},";
  "        " ++ q "longitudeE7" ++ ": {longitude},";
  "        " ++ q "accuracy" ++ ": {accuracy},";
  "        " ++ q "activity" ++ ": [{{";
  "            " ++ q "timestampMs" ++ ": " ++ q "{time_activity}" ++ ",";
  "            " ++ q "activity" ++ ": [{{";
  "                " ++ q "type" ++ ": " ++ q "UNKNOWN" ++ ",";
  "                " ++ q "confidence" ++ ": 56";
  "            }}, {{";
  "                " ++ q "type" ++ ": " ++ q "STILL" ++ ",";
  "                " ++ q "confidence" ++ ": 38";
  "            }}, {{";
  "                " ++ q "type" ++ ": " ++ q "IN_VEHICLE" ++ ",";
  "                " ++ q "confidence" ++ ": 5";
  "            }}, {{";
  "                " ++ q "type" ++ ": " ++ q "TILTING" ++ ",";
  "                " ++ q "confidence" ++ ": 1";
  "            }}]";
  "        }}]";
  EmptyString
]%string.

Definition pattern_altitude : string := text [
  EmptyString;
  "        " ++ q "timestampMs" ++ ": " ++ q "{time}" ++ ",";
  "        " ++ q "latitudeE7" ++ ": {latitude},";
  "        " ++ q "longitudeE7" ++ ": {longitude},";
  "        " ++ q "accuracy" ++ ": {accuracy},";
  "        " ++ q "altitude" ++ ": {altitude},";
  "        " ++ q "verticalAccuracy" ++ ": {vertical_accuracy}";
  EmptyString
]%string.

Definition all_patterns : list string :=
  [pattern_accuracy_only; pattern_accuracy_only; pattern_altitude;
   pattern_accuracy_only; pattern_altitude; pattern_activity].

Definition nr_patterns : Z := Z.of_nat (List.length all_patterns).

(** *** The script body *)

Definition lead_in : string :=
  text ["{"; "    " ++ q "locations" ++ ": [{"]%string.

Definition separator : string := "    }, {".

Definition lead_out : string := text [EmptyString; "    }]"; "}"]%string.

(** The variables the loop updates: the file, as the strings written to it
    so far, and the counter. *)
Record state : Type := {
  file : list string;
  points_written : Z
}.

Definition write (s : string) (st : state) : state :=
  {| file := file st ++ [s]; points_written := points_written st |}.

Section Script.

Variable cfg : config.

(** The record of [points_written], lines 93 to 107: the pattern chosen
    and filled in. *)
Definition select_pattern (points_written : Z) : result string :=
  getitem all_patterns (points_written mod nr_patterns).

(** The loop's variables [time] and [time_activity]. *)
Definition time (points_written : Z) : Z :=
  round_int (start_time cfg + time_rule cfg points_written).

Definition time_activity (points_written : Z) : Z :=
  round_int (time points_written + time_activity_rule cfg points_written).

Definition fill (pattern : string) (points_written : Z) : result string :=
  format pattern [] [
    ("time", str (time points_written));
    ("time_activity", str (time_activity points_written));
    ("latitude", str (round (latitude_rule points_written)));
    ("longitude", str (round (longitude_rule points_written)));
    ("accuracy", str (round_int (accuracy_rule points_written)));
    ("altitude", str (round (altitude_rule points_written)));
    ("vertical_accuracy",
      str (round_int (vertical_accuracy_rule points_written)))
  ]%string.

Definition render (points_written : Z) : result string :=
  do pattern <- select_pattern points_written ;;
  fill pattern points_written.

(** One turn of the [while] loop. *)
Definition loop_body (st : state) : outcome state :=
  match render (points_written st) with
  | Err e => Raised e st
  | Ok s =>
      let st := write s st in
      let st := {| file := file st;
                   points_written := points_written st + 1 |} in
      if points_written st <=? nr_points cfg
      then Finished (write separator st)
      else Finished st
  end.

(** [while points_written < nr_points]; [None] when [fuel] turns do not
    reach the end of the loop. *)
Fixpoint while_loop (fuel : nat) (st : state) : option (outcome state) :=
  if points_written st <? nr_points cfg then
    match fuel with
    | O => None
    | S fuel' =>
        match loop_body st with
        | Finished st' => while_loop fuel' st'
        | Raised e st' => Some (Raised e st')
        end
    end
  else Some (Finished st).

Definition script (fuel : nat) : option (outcome state) :=
  let st := {| file := []; points_written := 0 |} in
  let st := write lead_in st in
  match while_loop fuel st with
  | Some (Finished st) => Some (Finished (write lead_out st))
  | other => other
  end.

(** The loop takes [nr_points] turns, so that much fuel is enough
    ([while_loop_fuel] below). *)
Definition generate : option (outcome state) := script (Z.to_nat (nr_points cfg)).

End Script.

(** What the file holds in the end. *)
Definition contents (st : state) : string := String.concat EmptyString (file st).

Definition with_nr_points (n : Z) (cfg : config) : config :=
  {| filename := filename cfg;
     nr_points := n;
     time_between_points_s := time_between_points_s cfg;
     start_time := start_time cfg |}.

End GenerateGoogleJson.


(** ** gen_github_changes.py *)

Module GenGithubChanges.

(** What a run leaves behind: the lines printed, and the target file once
    it is opened, as the strings written to it. *)
Record state : Type := {
  printed : list string;
  target_file : option (list string)
}.

Definition print (s : string) (st : state) : state :=
  {| printed := printed st ++ [s]; target_file := target_file st |}.

Definition open_target (st : state) : state :=
  {| printed := printed st; target_file := Some [] |}.

Definition write (s : string) (st : state) : state :=
  {| printed := printed st;
     target_file := option_map (fun ws => ws ++ [s]) (target_file st) |}.

(** The [for] loop of [run_conversion].  The local variable [do_output] is
    [None] as long as no assignment to it has run; reading it then
    raises. *)
Fixpoint copy_lines (version : string) (src : list string)
    (do_output : option bool) (st : state) : outcome state :=
  match src with
  | [] => Finished st
  | line :: src' =>
      let do_output :=
        if startswith line ("# " ++ version) then Some true
        else if startswith line "# " then Some false
        else do_output in
      match do_output with
      | None => Raised (UnboundLocalError "do_output") st
      | Some b =>
          copy_lines version src' do_output
            (if b then write line st else st)
      end
  end.

Definition usage : string :=
  "Call with parameters for the source and target files, as well as version.".

(** [argv] is [sys.argv], the script's name first. *)
Definition run_conversion (argv : list string) (fs : files) : outcome state :=
  let st := {| printed := []; target_file := None |} in
  if len_list argv <? 4 then Finished (print usage st)
  else
    match getitem argv 1, getitem argv 2, getitem argv 3 with
    | Ok source, Ok _, Ok version =>
        match fs source with
        | None => Raised (FileNotFoundError source) st
        | Some content =>
            let src := readlines content in
            let st := open_target st in
            copy_lines version src None st
        end
    | Err e, _, _ | _, Err e, _ | _, _, Err e => Raised e st
    end.

End GenGithubChanges.

(** ** tool/google_json_unique_keys.py *)

Module GoogleJsonUniqueKeys_tool.

Section Script.

(** The characters that [\w] matches in the running Python. *)
Variable word : ascii -> bool.

Definition filename : string := "Locatiegeschiedenis.json".

Fixpoint collect (lines : list string) (unique_names : list string)
  : result (list string) :=
  match lines with
  | [] => Ok unique_names
  | line :: lines' =>
      let m := findall word line in
      if len_list m >? 0 then
        do name <- getitem m 0 ;;
        collect lines' (set_add name unique_names)
      else collect lines' unique_names
  end.

Fixpoint print_names (names : list string) (stdout : list string)
  : outcome (list string) :=
  match names with
  | [] => Finished stdout
  | name :: names' =>
      match format "{} : {}" [name; str (len name)] [] with
      | Ok s => print_names names' (stdout ++ [s])
      | Err e => Raised e stdout
      end
  end.

(** The script; the state is what it has printed. *)
Definition script (fs : files) : outcome (list string) :=
  match fs filename with
  | None => Raised (FileNotFoundError filename) []
  | Some content =>
      match collect (readlines content) [] with
      | Err e => Raised e []
      | Ok unique_names => print_names (sorted unique_names) []
      end
  end.

End Script.

End GoogleJsonUniqueKeys_tool.

(** ** tools/google_json_unique_keys.py *)

Module GoogleJsonUniqueKeys_tools.

Section Script.

Variable word : ascii -> bool.

Fixpoint collect (lines : list string) (unique_names : list string)
  : result (list string) :=
  match lines with
  | [] => Ok unique_names
  | line :: lines' =>
      let m := findall word line in
      if len_list m >? 0 then
        do name <- getitem m 0 ;;
        collect lines' (set_add name unique_names)
      else collect lines' unique_names
  end.

Fixpoint print_names (names : list string) (stdout : list string)
  : outcome (list string) :=
  match names with
  | [] => Finished stdout
  | name :: names' =>
      match format "{} : {}" [name; str (len name)] [] with
      | Ok s => print_names names' (stdout ++ [s])
      | Err e => Raised e stdout
      end
  end.

Definition script (fs : files) : outcome (list string) :=
  match fs "Locatiegeschiedenis.json"%string with
  | None => Raised (FileNotFoundError "Locatiegeschiedenis.json") []
  | Some content =>
      match collect (readlines content) [] with
      | Err e => Raised e []
      | Ok unique_names => print_names (sorted unique_names) []
      end
  end.

End Script.

End GoogleJsonUniqueKeys_tools.


(** ** The notions the specification is stated with *)

Module Spec.

Import GenerateGoogleJson.

(** The three record shapes, and the rotation of six the specification
    gives for them. *)
Inductive shape : Type := plain | altitude | activity.

Definition patterns : list shape :=
  [plain; plain; altitude; plain; altitude; activity].

Definition template (s : shape) : string :=
  match s with
  | plain => pattern_accuracy_only
  | altitude => pattern_altitude
  | activity => pattern_activity
  end.

(** The activity types and their confidences, in the order the
    specification lists them. *)
Definition activities : list (string * Z) :=
  [("UNKNOWN", 56); ("STILL", 38); ("IN_VEHICLE", 5); ("TILTING", 1)]%string.

(** One entry of the inner [activity] array, between its braces. *)
Definition activity_entry (a : string * Z) : string :=
  text [
    EmptyString;
    "                " ++ q "type" ++ ": " ++ q (fst a) ++ ",";
    "                " ++ q "confidence" ++ ": " ++ str (snd a);
    "            "
  ]%string.

(** An activity record as the specification describes it: the four common
    fields, then one [activity] element holding its own timestamp and the
    entries of [activities]. *)
Definition activity_record (time latitude longitude accuracy time_activity : Z)
  : string :=
  (text [
     EmptyString;
     "        " ++ q "timestampMs" ++ ": " ++ q (str time) ++ ",";
     "        " ++ q "latitudeE7" ++ ": " ++ str latitude ++ ",";
     "        " ++ q "longitudeE7" ++ ": " ++ str longitude ++ ",";
     "        " ++ q "accuracy" ++ ": " ++ str accuracy ++ ",";
     "        " ++ q "activity" ++ ": [{";
     "            " ++ q "timestampMs" ++ ": " ++ q (str time_activity) ++ ",";
     "            " ++ q "activity" ++ ": [{"
   ]
   ++ String.concat "}, {" (map activity_entry activities)
   ++ text ["}]"; "        }]"; EmptyString])%string.

(** The changelog cut into sections: a section starts at each line that
    begins with [# ] and runs up to, not including, the next such line;
    lines before the first header form a section without header. *)
Fixpoint sections (lines : list string) : list (list string) :=
  match lines with
  | [] => []
  | line :: lines' =>
      match lines' with
      | [] => [[line]]
      | next :: _ =>
          if startswith next "# " then [line] :: sections lines'
          else
            match sections lines' with
            | [] => [[line]]
            | s :: ss => (line :: s) :: ss
            end
      end
  end.

(** A section whose header begins with [# ] followed by the version. *)
Definition under_version (version : string) (section : list string) : bool :=
  match section with
  | [] => false
  | header :: _ => startswith header ("# " ++ version)
  end.

(** The lines the changelog slicer is specified to copy. *)
Definition section_lines (version : string) (lines : list string)
  : list string :=
  List.concat (filter (under_version version) (sections lines)).

End Spec.

(** ** JSON texts

    The reading of a JSON text that the round-trip property of the generator
    refers to, for the JSON the generator can write: objects, arrays,
    strings without escapes and integers, with white space between them.
    Any other text has no reading. *)

Module Json.

#[warnings="-register-all"]
Inductive value : Type :=
| Num (n : Z)
| Str (s : string)
| Arr (elements : list value)
| Obj (members : list (string * value)).

Inductive token : Type :=
| LBrace | RBrace | LBracket | RBracket | Colon | Comma
| TStr (s : string)
| TNum (n : Z).

(** Where the lexer is: between tokens, inside a string, after a minus
    sign, or inside the digits of a number. *)
Inductive mode : Type :=
| Between
| InStr (acc : string)
| Minus
| InNum (sign : Z) (digits : Z).

Definition digit_of (c : ascii) : option Z :=
  let n := nat_of_ascii c in
  if ((48 <=? n) && (n <=? 57))%nat then Some (Z.of_nat n - 48) else None.

Definition is_space (c : ascii) : bool :=
  let n := nat_of_ascii c in
  ((n =? 32) || (n =? 10) || (n =? 13) || (n =? 9))%nat.

(** What a character read between tokens does: the tokens it completes
    and the mode it leaves the lexer in. *)
Definition start (c : ascii) : option (list token * mode) :=
  if is_space c then Some ([], Between)
  else if Ascii.eqb c "{" then Some ([LBrace], Between)
  else if Ascii.eqb c "}" then Some ([RBrace], Between)
  else if Ascii.eqb c "[" then Some ([LBracket], Between)
  else if Ascii.eqb c "]" then Some ([RBracket], Between)
  else if Ascii.eqb c ":" then Some ([Colon], Between)
  else if Ascii.eqb c "," then Some ([Comma], Between)
  else if Ascii.eqb c (ascii_of_nat 34) then Some ([], InStr EmptyString)
  else if Ascii.eqb c "-" then Some ([], Minus)
  else match digit_of c with
       | Some d => Some ([], InNum 1 d)
       | None => None
       end.

Fixpoint lex (s : string) (m : mode) : option (list token) :=
  match s with
  | EmptyString =>
      match m with
      | Between => Some []
      | InNum sign n => Some [TNum (sign * n)]
      | InStr _ | Minus => None
      end
  | String c rest =>
      match m with
      | Between =>
          match start c with
          | Some (ts, m') => option_map (app ts) (lex rest m')
          | None => None
          end
      | InStr acc =>
          if Ascii.eqb c (ascii_of_nat 34)
          then option_map (cons (TStr acc)) (lex rest Between)
          else if Ascii.eqb c (ascii_of_nat 92) then None
          else lex rest (InStr (acc ++ String c EmptyString)%string)
      | Minus =>
          match digit_of c with
          | Some d => lex rest (InNum (-1) d)
          | None => None
          end
      | InNum sign n =>
          match digit_of c with
          | Some d => lex rest (InNum sign (10 * n + d))
          | None =>
              match start c with
              | Some (ts, m') =>
                  option_map (fun r => TNum (sign * n) :: ts ++ r) (lex rest m')
              | None => None
              end
          end
      end
  end.

(** A value at the head of the tokens, and the tokens after it. *)
Fixpoint parse_value (fuel : nat) (ts : list token)
  : option (value * list token) :=
  match fuel with
  | O => None
  | S fuel' =>
      match ts with
      | TNum n :: ts' => Some (Num n, ts')
      | TStr s :: ts' => Some (Str s, ts')
      | LBracket :: RBracket :: ts' => Some (Arr [], ts')
      | LBracket :: ts' =>
          match parse_value fuel' ts' with
          | Some (v, ts'') => parse_elements fuel' [v] ts''
          | None => None
          end
      | LBrace :: RBrace :: ts' => Some (Obj [], ts')
      | LBrace :: TStr k :: Colon :: ts' =>
          match parse_value fuel' ts' with
          | Some (v, ts'') => parse_members fuel' [(k, v)] ts''
          | None => None
          end
      | _ => None
      end
  end
with parse_elements (fuel : nat) (acc : list value) (ts : list token)
  : option (value * list token) :=
  match fuel with
  | O => None
  | S fuel' =>
      match ts with
      | RBracket :: ts' => Some (Arr (rev acc), ts')
      | Comma :: ts' =>
          match parse_value fuel' ts' with
          | Some (v, ts'') => parse_elements fuel' (v :: acc) ts''
          | None => None
          end
      | _ => None
      end
  end
with parse_members (fuel : nat) (acc : list (string * value))
    (ts : list token) : option (value * list token) :=
  match fuel with
  | O => None
  | S fuel' =>
      match ts with
      | RBrace :: ts' => Some (Obj (rev acc), ts')
      | Comma :: TStr k :: Colon :: ts' =>
          match parse_value fuel' ts' with
          | Some (v, ts'') => parse_members fuel' ((k, v) :: acc) ts''
          | None => None
          end
      | _ => None
      end
  end.

(** The value a text denotes, when it is one value and nothing else. *)
Definition parse (s : string) : option value :=
  match lex s Between with
  | None => None
  | Some ts =>
      match parse_value (S (List.length ts)) ts with
      | Some (v, []) => Some v
      | _ => None
      end
  end.

End Json.


(** ** The writes of a run of the generator *)

Module Trace.

Import GenerateGoogleJson.

(** The text of record [i]. *)
Definition record (cfg : config) (i : Z) : string :=
  match render cfg i with
  | Ok s => s
  | Err _ => EmptyString
  end.

(** The [k] indices from [p] on. *)
Fixpoint indices (p : Z) (k : nat) : list Z :=
  match k with
  | O => []
  | S k' => p :: indices (p + 1) k'
  end.

(** What the loop writes for the indices [ixs]: each record, and the
    separator after it. *)
Definition loop_writes (cfg : config) (ixs : list Z) : list string :=
  flat_map (fun i => [record cfg i; separator]) ixs.

End Trace.

(** ** Notions used in the statements about runs *)

Module Runs.

Import GenerateGoogleJson.

(** A run of the generator that is refused as a configuration error
    before anything is written. *)
Definition rejected (run : option (outcome state)) : Prop :=
  exists e, run = Some (Raised e {| file := []; points_written := 0 |}).

(** The lines before the first header, and the lines from it on. *)
Fixpoint preamble (lines : list string) : list string :=
  match lines with
  | [] => []
  | line :: lines' =>
      if startswith line "# " then [] else line :: preamble lines'
  end.

Fixpoint after_preamble (lines : list string) : list string :=
  match lines with
  | [] => []
  | line :: lines' =>
      if startswith line "# " then lines else after_preamble lines'
  end.

(** A changelog with a title line above its first version, and the file
    system and command line of a run of the slicer on it. *)
Definition titled_changelog : string :=
  String.concat nl
    ["Changelog"; "# 1.0"; "- fix"; "# 0.9"; "- old"; EmptyString]%string.

Definition titled_files : files :=
  fun path =>
    if String.eqb path "CHANGELOG.md" then Some titled_changelog else None.

Definition titled_argv : list string :=
  ["gen_github_changes.py"; "CHANGELOG.md"; "changes.md"; "1.0"]%string.

End Runs.

(** ** The records, shape by shape *)

Module Records.

Import GenerateGoogleJson.

(** A record with the four common fields only. *)
Definition plain_record (time latitude longitude accuracy : Z) : string :=
(text [
  EmptyString;
  "        " ++ q "timestampMs" ++ ": " ++ q (str time) ++ ",";
  "        " ++ q "latitudeE7" ++ ": " ++ str latitude ++ ",";
  "        " ++ q "longitudeE7" ++ ": " ++ str longitude ++ ",";
  "        " ++ q "accuracy" ++ ": " ++ str accuracy;
  EmptyString
])%string.

(** A record with the altitude and its accuracy after the common fields. *)
Definition altitude_record
  (time latitude longitude accuracy altitude vertical_accuracy : Z) : string :=
(text [
  EmptyString;
  "        " ++ q "timestampMs" ++ ": " ++ q (str time) ++ ",";
  "        " ++ q "latitudeE7" ++ ": " ++ str latitude ++ ",";
  "        " ++ q "longitudeE7" ++ ": " ++ str longitude ++ ",";
  "        " ++ q "accuracy" ++ ": " ++ str accuracy ++ ",";
  "        " ++ q "altitude" ++ ": " ++ str altitude ++ ",";
  "        " ++ q "verticalAccuracy" ++ ": " ++ str vertical_accuracy;
  EmptyString
])%string.

(** The text of record [i] when it has the shape [s]. *)
Definition record_of_shape (cfg : config) (s : Spec.shape) (i : Z) : string :=
match s with
| Spec.plain =>
    plain_record (time cfg i) (round (latitude_rule i))
      (round (longitude_rule i)) (accuracy_rule i)
| Spec.altitude =>
    altitude_record (time cfg i) (round (latitude_rule i))
      (round (longitude_rule i)) (accuracy_rule i)
      (round (altitude_rule i)) (vertical_accuracy_rule i)
| Spec.activity =>
    Spec.activity_record (time cfg i) (round (latitude_rule i))
      (round (longitude_rule i)) (accuracy_rule i) (time_activity cfg i)
end.

End Records.

(** ** Notions used in the further statements about the slicer *)

Module Slices.

Import GenGithubChanges.

(** [ws] is [ls] with some elements left out: elements of [ls], in the
    order they have in [ls]. *)
Inductive subseq {A : Type} : list A -> list A -> Prop :=
| subseq_nil : subseq [] []
| subseq_skip (x : A) (ws ls : list A) : subseq ws ls -> subseq ws (x :: ls)
| subseq_take (x : A) (ws ls : list A) :
    subseq ws ls -> subseq (x :: ws) (x :: ls).

(** The state a run ends in, with or without an exception. *)
Definition final_state (o : outcome state) : state :=
match o with
| Finished st => st
| Raised _ st => st
end.

(** A changelog that begins with a header, with two versions whose headers
    begin alike, and the file system and command line of a run on it. *)
Definition changelog : string :=
String.concat nl
  ["# 1.0.1"; "- patch"; "# 1.0"; "- fix"; "- more"; "# 0.9"; "- old";
   EmptyString]%string.

Definition changelog_files : files :=
fun path => if String.eqb path "CHANGELOG.md" then Some changelog else None.

Definition argv_for (version : string) : list string :=
["gen_github_changes.py"; "CHANGELOG.md"; "changes.md"; version]%string.

End Slices.

(** ** Notions used in the further statements about the key lister *)

Module Keys.

(** The line printed for a name. *)
Definition line_of (name : string) : string :=
(name ++ " : " ++ str (len name))%string.

(** The names the lister under [tool/] prints for a file content, in the
    order it prints them. *)
Definition names_of (word : ascii -> bool) (content : string) : list string :=
match GoogleJsonUniqueKeys_tool.collect word (readlines content) [] with
| Ok unique_names => sorted unique_names
| Err _ => []
end.

(** One turn of the first loop of the lister: the first match of the line,
    if it has one, joins the set. *)
Definition add_first_word (word : ascii -> bool) (names : list string)
  (line : string) : list string :=
match findall word line with
| [] => names
| w :: _ => set_add w names
end.

(** The order [sorted] puts strings in. *)
Definition leq (a b : string) : Prop := String.leb a b = true.

(** [name] is the first match of some line of the file. *)
Definition first_word_in (word : ascii -> bool) (content name : string)
  : Prop :=
exists line, In line (readlines content)
             /\ hd_error (findall word line) = Some name.

(** All characters of a string are in a class. *)
Fixpoint all_in (cls : ascii -> bool) (s : string) : bool :=
match s with
| EmptyString => true
| String c s' => cls c && all_in cls s'
end.

End Keys.

(** ** Lines and files *)

Module Lines.

(** The text of a file written piece by piece. *)
Definition join (ws : list string) : string := String.concat EmptyString ws.

(** A string without a newline. *)
Fixpoint no_newline (s : string) : bool :=
match s with
| EmptyString => true
| String c s' => negb (is_newline c) && no_newline s'
end.

(** Lines as [readlines] cuts them: each ends with its only newline, but
    the last one, which may lack it and is not empty then. *)
Inductive well_split : list string -> Prop :=
| well_split_nil : well_split []
| well_split_last (u : string) :
    u <> EmptyString -> no_newline u = true -> well_split [u]
| well_split_cons (body : string) (ls : list string) :
    no_newline body = true -> well_split ls ->
    well_split ((body ++ nl)%string :: ls).

(** A line the slicer copies once [do_output] holds: a header of the
    version, or no header at all. *)
Definition keepable (version line : string) : Prop :=
startswith line ("# " ++ version) = true \/ startswith line "# " = false.

End Lines.

(** ** The generated document as a JSON value *)

Module Documents.

Import GenerateGoogleJson Json.

(** The number that the digits [d] make when read after the number [n]. *)
Fixpoint uint_acc (d : Decimal.uint) (n : Z) : Z :=
match d with
| Decimal.Nil => n
| Decimal.D0 d' => uint_acc d' (10 * n + 0)
| Decimal.D1 d' => uint_acc d' (10 * n + 1)
| Decimal.D2 d' => uint_acc d' (10 * n + 2)
| Decimal.D3 d' => uint_acc d' (10 * n + 3)
| Decimal.D4 d' => uint_acc d' (10 * n + 4)
| Decimal.D5 d' => uint_acc d' (10 * n + 5)
| Decimal.D6 d' => uint_acc d' (10 * n + 6)
| Decimal.D7 d' => uint_acc d' (10 * n + 7)
| Decimal.D8 d' => uint_acc d' (10 * n + 8)
| Decimal.D9 d' => uint_acc d' (10 * n + 9)
end.

(** [s] is read as the number [z] where a number stands, and as itself
    inside a string. *)
Definition numeral (s : string) (z : Z) : Prop :=
(forall c rest,
    digit_of c = None ->
    lex (s ++ String c rest) Between =
    match start c with
    | Some (ts, m) => option_map (fun r => TNum z :: ts ++ r) (lex rest m)
    | None => None
    end)
/\ (forall acc rest,
       lex (s ++ rest) (InStr acc) = lex rest (InStr (acc ++ s))).

(** Reading a piece of a text: the tokens completed within the piece, and
    where the lexer is at its end. *)
Fixpoint scan (s : string) (m : mode) : option (list token * mode) :=
match s with
| EmptyString => Some ([], m)
| String c rest =>
    match m with
    | Between =>
        match start c with
        | Some (ts, m') =>
            option_map (fun r => (ts ++ fst r, snd r)) (scan rest m')
        | None => None
        end
    | InStr acc =>
        if Ascii.eqb c (ascii_of_nat 34)
        then option_map (fun r => (TStr acc :: fst r, snd r))
               (scan rest Between)
        else if Ascii.eqb c (ascii_of_nat 92) then None
        else scan rest (InStr (acc ++ String c EmptyString)%string)
    | Minus =>
        match digit_of c with
        | Some d => scan rest (InNum (-1) d)
        | None => None
        end
    | InNum sign n =>
        match digit_of c with
        | Some d => scan rest (InNum sign (10 * n + d))
        | None =>
            match start c with
            | Some (ts, m') =>
                option_map
                  (fun r => (TNum (sign * n) :: ts ++ fst r, snd r))
                  (scan rest m')
            | None => None
            end
        end
    end
end.

(** The members of the record of index [i], for each shape. *)
Definition common_members (cfg : config) (i : Z) : list (string * value) :=
[("timestampMs", Str (str (time cfg i)));
 ("latitudeE7", Num (round (latitude_rule i)));
 ("longitudeE7", Num (round (longitude_rule i)));
 ("accuracy", Num (accuracy_rule i))]%string.

Definition activity_value (a : string * Z) : value :=
Obj [("type", Str (fst a)); ("confidence", Num (snd a))]%string.

Definition record_members (cfg : config) (s : Spec.shape) (i : Z)
  : list (string * value) :=
match s with
| Spec.plain => common_members cfg i
| Spec.altitude =>
    common_members cfg i
    ++ [("altitude", Num (round (altitude_rule i)));
        ("verticalAccuracy", Num (vertical_accuracy_rule i))]%string
| Spec.activity =>
    common_members cfg i
    ++ [("activity",
         Arr [Obj [("timestampMs", Str (str (time_activity cfg i)));
                   ("activity", Arr (map activity_value Spec.activities))]])
       ]%string
end.

(** The shape of the record of index [i]. *)
Definition shape_of (i : Z) : Spec.shape :=
nth (Z.to_nat (i mod 6)) Spec.patterns Spec.plain.

Definition record_value (cfg : config) (i : Z) : value :=
Obj (record_members cfg (shape_of i) i).

(** The document the generator writes for [n] records: the records, and
    one empty object after them. *)
Definition document (cfg : config) (n : nat) : value :=
Obj [("locations"%string,
      Arr (map (fun j => record_value cfg (Z.of_nat j)) (seq 0 n)
           ++ [Obj []]))].

(** The tokens of the members of an object, for the values the records are
    made of. *)
Fixpoint tokens_of (v : value) : list token :=
match v with
| Num n => [TNum n]
| Str s => [TStr s]
| Arr vs =>
    LBracket
    :: (fix elements (vs : list value) : list token :=
          match vs with
          | [] => []
          | v :: vs' =>
              match vs' with
              | [] => tokens_of v
              | _ => tokens_of v ++ Comma :: elements vs'
              end
          end) vs
    ++ [RBracket]
| Obj ms =>
    LBrace
    :: (fix members (ms : list (string * value)) : list token :=
          match ms with
          | [] => []
          | (k, v) :: ms' =>
              match ms' with
              | [] => TStr k :: Colon :: tokens_of v
              | _ => TStr k :: Colon :: tokens_of v ++ Comma :: members ms'
              end
          end) ms
    ++ [RBrace]
end.

(** The tokens between the braces of an object. *)
Definition inner_tokens (ms : list (string * value)) : list token :=
removelast (tl (tokens_of (Obj ms))).

(** The tokens that follow the brace opening the first element: each
    record with the separator after it, and the lead-out. *)
Fixpoint stream (cfg : config) (ixs : list Z) : list token :=
match ixs with
| [] => [RBrace; RBracket; RBrace]
| i :: ixs' =>
    inner_tokens (record_members cfg (shape_of i) i)
    ++ [RBrace; Comma; LBrace] ++ stream cfg ixs'
end.

End Documents.

(** ** The first words of the lines of a text *)

Module Words.

(** Where the search for the first match of a line is: before its end,
    with the characters of the match read so far, or past it. *)
Inductive wstate : Type :=
| Before (run : string)
| Done (w : string).

(** The first match of a line, if it has one. *)
Definition first_of (cls : ascii -> bool) (line : string) : list string :=
match findall cls line with
| [] => []
| w :: _ => [w]
end.

(** The first match of a line that goes on with [x] and ends there. *)
Definition close (cls : ascii -> bool) (st : wstate) (x : string)
  : list string :=
match st with
| Done w => [w]
| Before run =>
    match findall_from cls x run with
    | [] => []
    | w :: _ => [w]
    end
end.

Definition step (cls : ascii -> bool) (st : wstate) (c : ascii) : wstate :=
match st with
| Done w => Done w
| Before run =>
    if cls c then Before (run ++ String c EmptyString)%string
    else match run with
         | EmptyString => Before EmptyString
         | _ => Done run
         end
end.

(** A piece of a text, read: the first matches of the lines that end
    within the piece, and where the search is at its end. *)
Fixpoint scan_words (cls : ascii -> bool) (s : string) (st : wstate)
  : list string * wstate :=
match s with
| EmptyString => ([], st)
| String c rest =>
    if is_newline c then
      let r := scan_words cls rest (Before EmptyString) in
      (close cls st (String c EmptyString) ++ fst r, snd r)
    else scan_words cls rest (step cls st c)
end.

(** The words found before a piece put before those found in it. *)
Definition prepend (ws : list string) (r : list string * wstate)
  : list string * wstate :=
(ws ++ fst r, snd r).

(** The first matches of all lines of a text. *)
Definition first_words (cls : ascii -> bool) (s : string) (st : wstate)
  : list string :=
fst (scan_words cls s st) ++ close cls (snd (scan_words cls s st)) EmptyString.

(** What is known of the line read so far: its first match, whatever
    follows. *)
Definition knows (cls : ascii -> bool) (line : string) (st : wstate) : Prop :=
forall x, first_of cls (line ++ x) = close cls st x.

(** The first words of the lines of a record, by shape. *)
Definition shape_words (s : Spec.shape) : list string :=
match s with
| Spec.plain => ["timestampMs"; "latitudeE7"; "longitudeE7"; "accuracy"]
| Spec.altitude =>
    ["timestampMs"; "latitudeE7"; "longitudeE7"; "accuracy"; "altitude";
     "verticalAccuracy"]
| Spec.activity =>
    ["timestampMs"; "latitudeE7"; "longitudeE7"; "accuracy"; "activity";
     "timestampMs"; "activity"; "type"; "confidence"; "type"; "confidence";
     "type"; "confidence"; "type"; "confidence"]
end%string.

(** The keys of the generated document, in ascending order. *)
Definition generated_keys : list string :=
["accuracy"; "activity"; "altitude"; "confidence"; "latitudeE7";
 "locations"; "longitudeE7"; "timestampMs"; "type"; "verticalAccuracy"]%string.

End Words.

(** * Verification *)

(** ** The derivation rules of the generator *)

Import GenerateGoogleJson Trace.

Section RuleFacts.

Variable cfg : config.

(** A multiple of 50 is a multiple of 10. *)
Lemma mod_50_mod_10 (i : Z) : i mod 50 = 0 -> i mod 10 = 0.
Proof.
  intros H.
  rewrite (Z.div_mod i 50) by lia.
  rewrite H, Z.add_0_r.
  replace (50 * (i / 50)) with (5 * (i / 50) * 10) by lia.
  apply Z.mod_mul; lia.
Qed.

Lemma extra_delay_zero (i : Z) : extra_delay cfg i = 0.
Proof.
  unfold extra_delay.
  destruct (i mod 50 =? 0) eqn:E; simpl; [|reflexivity].
  apply Z.eqb_eq, mod_50_mod_10 in E. rewrite E. lia.
Qed.

Lemma time_linear (i : Z) :
  time cfg i = start_time cfg + 1000 * time_between_points_s cfg * i.
Proof.
  unfold time, round_int, time_rule. rewrite extra_delay_zero. lia.
Qed.

End RuleFacts.

(** C9: for every index [i >= 0], [accuracy_rule i] is [20 * (i mod 30)] and
    lies between 0 and 580, and [vertical_accuracy_rule i] is
    [accuracy_rule i // 10]. *)
Theorem accuracy_rule_range (i : Z) :
  0 <= i ->
  accuracy_rule i = 20 * (i mod 30)
  /\ 0 <= accuracy_rule i <= 580
  /\ vertical_accuracy_rule i = accuracy_rule i / 10.
Proof.
  intros _. unfold vertical_accuracy_rule, accuracy_rule.
  pose proof (Z.mod_pos_bound i 30 ltac:(lia)).
  split; [|split]; lia.
Qed.

Lemma accuracy_rule_range_witness :
  accuracy_rule 59 = 20 * (59 mod 30)
  /\ 0 <= accuracy_rule 59 <= 580
  /\ vertical_accuracy_rule 59 = accuracy_rule 59 / 10.
Proof. apply (accuracy_rule_range 59). lia. Defined.

(** C3: for every index [i >= 0], [extra_delay] is 0 unless [i mod 50 = 0],
    and is [time_between_points_s * 100 * (i mod 10)] then (at [i = 50] for
    one); the timestamp of record [i] is
    [start_time + i * 1000 * time_between_points_s + extra_delay i]. *)
Theorem extra_delay_formula (cfg : config) (i : Z) :
  0 <= i ->
  extra_delay cfg i =
    (if i mod 50 =? 0 then time_between_points_s cfg * 100 * (i mod 10) else 0)
  /\ extra_delay cfg 50 = time_between_points_s cfg * 100 * (50 mod 10)
  /\ time cfg i =
       start_time cfg + i * 1000 * time_between_points_s cfg + extra_delay cfg i.
Proof.
  intros _. split; [|split].
  - unfold extra_delay. destruct (i mod 50 =? 0); reflexivity.
  - reflexivity.
  - unfold time, round_int, time_rule. lia.
Qed.

Lemma extra_delay_formula_witness :
  extra_delay default 50 =
    (if 50 mod 50 =? 0 then time_between_points_s default * 100 * (50 mod 10)
     else 0)
  /\ extra_delay default 50 = time_between_points_s default * 100 * (50 mod 10)
  /\ time default 50 =
       start_time default + 50 * 1000 * time_between_points_s default
       + extra_delay default 50.
Proof. apply (extra_delay_formula default 50). lia. Defined.

(** C4: for every index [i >= 0] the extra delay is 0, since a multiple of
    50 is a multiple of 10; so the timestamp is
    [start_time + 1000 * time_between_points_s * i], without a jump at any
    index, and timestamps increase strictly when [time_between_points_s] is
    positive. *)
Theorem time_exactly_linear (cfg : config) (i : Z) :
  0 <= i ->
  extra_delay cfg i = 0
  /\ time cfg i = start_time cfg + 1000 * time_between_points_s cfg * i
  /\ (0 < time_between_points_s cfg ->
      forall j, i < j -> time cfg i < time cfg j).
Proof.
  intros _. split; [apply extra_delay_zero|]. split; [apply time_linear|].
  intros Hpos j Hij. rewrite !time_linear. nia.
Qed.

Lemma time_exactly_linear_witness :
  extra_delay default 50 = 0
  /\ time default 50 = 1379129160146 + 1000 * 60 * 50
  /\ time default 50 < time default 51.
Proof.
  destruct (time_exactly_linear default 50 ltac:(lia)) as (H0 & H1 & H2).
  split; [exact H0|]. split; [exact H1|].
  apply H2; simpl; lia.
Defined.

(** ** The rotation of the patterns *)

Lemma nr_patterns_6 : nr_patterns = 6.
Proof. reflexivity. Qed.

Lemma mod_6_cases (i : Z) :
  i mod 6 = 0 \/ i mod 6 = 1 \/ i mod 6 = 2
  \/ i mod 6 = 3 \/ i mod 6 = 4 \/ i mod 6 = 5.
Proof. pose proof (Z.mod_pos_bound i 6 ltac:(lia)). lia. Qed.

(** C5: for every index [i >= 0], the pattern the loop selects is the one at
    place [i mod 6] of the rotation plain, plain, altitude, plain, altitude,
    activity. *)
Theorem select_pattern_rotation (i : Z) :
  0 <= i ->
  exists s : Spec.shape,
    nth_error Spec.patterns (Z.to_nat (i mod 6)) = Some s
    /\ select_pattern i = Ok (Spec.template s).
Proof.
  intros _. unfold select_pattern. rewrite nr_patterns_6.
  destruct (mod_6_cases i) as [H|[H|[H|[H|[H|H]]]]]; rewrite H;
    eexists; split; reflexivity.
Qed.

Lemma select_pattern_rotation_witness :
  exists s : Spec.shape,
    nth_error Spec.patterns (Z.to_nat (11 mod 6)) = Some s
    /\ select_pattern 11 = Ok (Spec.template s).
Proof. apply (select_pattern_rotation 11). lia. Defined.

(** ** Strings *)

Lemma append_assoc (a b c : string) :
  ((a ++ b) ++ c = a ++ (b ++ c))%string.
Proof. induction a as [|x a IH]; simpl; [reflexivity | now rewrite IH]. Qed.

Lemma append_nil_r (a : string) : (a ++ EmptyString)%string = a.
Proof. induction a as [|x a IH]; simpl; [reflexivity | now rewrite IH]. Qed.

(** ** Filling in the templates *)

Section FormatFacts.

Local Open Scope string_scope.

(** Both sides of an equation between texts with unknown parts, brought to
    the same right-nested shape. *)
Ltac text_eq :=
  vm_compute;
  repeat (rewrite !append_assoc; cbn [String.append]);
  reflexivity.

Variables time time_activity latitude longitude accuracy altitude
  vertical_accuracy : string.

Local Notation "'kw'" :=
  [("time", time); ("time_activity", time_activity);
   ("latitude", latitude); ("longitude", longitude);
   ("accuracy", accuracy); ("altitude", altitude);
   ("vertical_accuracy", vertical_accuracy)] (only parsing).

Lemma format_accuracy_only :
  format pattern_accuracy_only [] kw =
  Ok (text [
    EmptyString;
    "        " ++ q "timestampMs" ++ ": " ++ q time ++ ",";
    "        " ++ q "latitudeE7" ++ ": " ++ latitude ++ ",";
    "        " ++ q "longitudeE7" ++ ": " ++ longitude ++ ",";
    "        " ++ q "accuracy" ++ ": " ++ accuracy;
    EmptyString
  ]).
Proof. text_eq. Qed.

Lemma format_altitude :
  format pattern_altitude [] kw =
  Ok (text [
    EmptyString;
    "        " ++ q "timestampMs" ++ ": " ++ q time ++ ",";
    "        " ++ q "latitudeE7" ++ ": " ++ latitude ++ ",";
    "        " ++ q "longitudeE7" ++ ": " ++ longitude ++ ",";
    "        " ++ q "accuracy" ++ ": " ++ accuracy ++ ",";
    "        " ++ q "altitude" ++ ": " ++ altitude ++ ",";
    "        " ++ q "verticalAccuracy" ++ ": " ++ vertical_accuracy;
    EmptyString
  ]).
Proof. text_eq. Qed.

Lemma format_activity :
  exists s, format pattern_activity [] kw = Ok s.
Proof. eexists. vm_compute. reflexivity. Qed.

End FormatFacts.

Lemma format_activity_record (cfg : config) (i : Z) :
  fill cfg pattern_activity i =
  Ok (Spec.activity_record (time cfg i) (round (latitude_rule i))
        (round (longitude_rule i)) (accuracy_rule i) (time_activity cfg i)).
Proof.
  unfold fill, Spec.activity_record, round_int.
  generalize (str (time cfg i)) (str (time_activity cfg i))
    (str (round (latitude_rule i))) (str (round (longitude_rule i)))
    (str (accuracy_rule i)) (str (round (altitude_rule i)))
    (str (vertical_accuracy_rule i)).
  intros t ta la lo ac al va.
  vm_compute.
  repeat (rewrite !append_assoc; cbn [String.append]).
  reflexivity.
Qed.

(** Every index has a record: no lookup of a pattern and no filling in
    raises. *)
Lemma render_defined (cfg : config) (i : Z) : exists s, render cfg i = Ok s.
Proof.
  unfold render, select_pattern. rewrite nr_patterns_6.
  destruct (mod_6_cases i) as [H|[H|[H|[H|[H|H]]]]]; rewrite H;
    cbn [getitem bind]; simpl; unfold fill;
    first [ rewrite format_accuracy_only | rewrite format_altitude
          | apply format_activity ];
    eexists; reflexivity.
Qed.

Lemma render_record (cfg : config) (i : Z) : render cfg i = Ok (record cfg i).
Proof.
  unfold record. destruct (render_defined cfg i) as [s ->]. reflexivity.
Qed.

(** C6: for every index [i >= 0] whose record has the activity shape, the
    record holds, after the four common fields, one [activity] element with
    the timestamp [time i + time_between_points_s // (1 + i mod 3)] and the
    four entries UNKNOWN 56, STILL 38, IN_VEHICLE 5, TILTING 1 in this
    order. *)
Theorem render_activity (cfg : config) (i : Z) :
  0 <= i ->
  select_pattern i = Ok pattern_activity ->
  render cfg i =
    Ok (Spec.activity_record (time cfg i) (round (latitude_rule i))
          (round (longitude_rule i)) (accuracy_rule i)
          (time cfg i + time_between_points_s cfg / (1 + i mod 3)))
  /\ Spec.activities =
       [("UNKNOWN", 56); ("STILL", 38); ("IN_VEHICLE", 5); ("TILTING", 1)]%string.
Proof.
  intros _ Hsel. split; [|reflexivity].
  unfold render. rewrite Hsel. cbn [bind].
  apply format_activity_record.
Qed.

Lemma render_activity_witness :
  render default 5 =
    Ok (Spec.activity_record (time default 5) (round (latitude_rule 5))
          (round (longitude_rule 5)) (accuracy_rule 5)
          (time default 5 + time_between_points_s default / (1 + 5 mod 3)))
  /\ Spec.activities =
       [("UNKNOWN", 56); ("STILL", 38); ("IN_VEHICLE", 5); ("TILTING", 1)]%string.
Proof. apply (render_activity default 5); [lia | reflexivity]. Defined.

(** ** The loop of the generator *)

Lemma while_loop_run (cfg : config) (k : nat) :
  forall (fuel : nat) (st : state),
    points_written st + Z.of_nat k = nr_points cfg ->
    (k <= fuel)%nat ->
    while_loop cfg fuel st =
    Some (Finished {|
      file := file st ++ loop_writes cfg (indices (points_written st) k);
      points_written := nr_points cfg |}).
Proof.
  induction k as [|k IH]; intros fuel [f p] Hp Hfuel; cbn [points_written file] in *.
  - assert ((p <? nr_points cfg) = false) as E by (apply Z.ltb_ge; lia).
    destruct fuel; cbn [while_loop points_written]; rewrite E;
      cbn [indices loop_writes flat_map]; rewrite app_nil_r;
      do 3 f_equal; lia.
  - assert ((p <? nr_points cfg) = true) as E by (apply Z.ltb_lt; lia).
    destruct fuel as [|fuel]; [lia|].
    cbn [while_loop points_written]. rewrite E.
    unfold loop_body. cbn [points_written]. rewrite render_record.
    unfold write; cbn [file points_written].
    assert ((p + 1 <=? nr_points cfg) = true) as E' by (apply Z.leb_le; lia).
    rewrite E'.
    rewrite IH by (cbn [points_written]; lia).
    cbn [file points_written indices loop_writes flat_map].
    rewrite <- !app_assoc. reflexivity.
Qed.

(** The loop does not run when there is nothing to write. *)
Lemma while_loop_skip (cfg : config) (fuel : nat) (st : state) :
  nr_points cfg <= points_written st ->
  while_loop cfg fuel st = Some (Finished st).
Proof.
  intros H. assert ((points_written st <? nr_points cfg) = false) as E
    by (apply Z.ltb_ge; lia).
  destruct fuel; cbn [while_loop]; rewrite E; reflexivity.
Qed.

(** More fuel than the number of records changes nothing. *)
Lemma while_loop_fuel (cfg : config) (fuel : nat) :
  (Z.to_nat (nr_points cfg) <= fuel)%nat ->
  script cfg fuel = generate cfg.
Proof.
  intros Hfuel. unfold generate, script.
  destruct (Z.le_gt_cases 0 (nr_points cfg)) as [Hn|Hn].
  - rewrite !(while_loop_run cfg (Z.to_nat (nr_points cfg)));
      unfold write; cbn [points_written]; try lia.
    reflexivity.
  - rewrite !while_loop_skip by (unfold write; cbn [points_written]; lia).
    reflexivity.
Qed.

(** The writes of a whole run: the lead-in, each record followed by the
    separator, the lead-out. *)
Lemma generate_writes (cfg : config) :
  0 <= nr_points cfg ->
  generate cfg =
  Some (Finished {|
    file := [lead_in]
            ++ loop_writes cfg (indices 0 (Z.to_nat (nr_points cfg)))
            ++ [lead_out];
    points_written := nr_points cfg |}).
Proof.
  intros Hn. unfold generate, script.
  rewrite (while_loop_run cfg (Z.to_nat (nr_points cfg)));
    unfold write; cbn [points_written file]; try lia.
  rewrite <- app_assoc. reflexivity.
Qed.

(** ** The first record *)

Lemma round_IZR (n : Z) : round (IZR n) = n.
Proof.
  unfold round. rewrite ZfloorZ.
  destruct (Rlt_dec (IZR n - IZR n) (1 / 2)) as [_|H]; [reflexivity|].
  exfalso. apply H. lra.
Qed.

Lemma latitude_rule_0 : latitude_rule 0 = IZR 0.
Proof.
  unfold latitude_rule.
  assert (IZR 0 / 1000 = 0)%R as -> by lra.
  rewrite sin_0. lra.
Qed.

Lemma longitude_rule_0 : longitude_rule 0 = IZR 1800000000.
Proof.
  unfold longitude_rule.
  assert (IZR 0 / 1000 = 0)%R as -> by lra.
  rewrite cos_0. change (10000000 * 180) with 1800000000. lra.
Qed.

Lemma altitude_rule_0 : altitude_rule 0 = IZR 0.
Proof. unfold altitude_rule. rewrite sin_0. lra. Qed.


(** ** Runs of the generator *)

Lemma record_0 (cfg : config) :
  record cfg 0 =
  text [
    EmptyString;
    "        " ++ q "timestampMs" ++ ": " ++ q (str (start_time cfg)) ++ ",";
    "        " ++ q "latitudeE7" ++ ": 0,";
    "        " ++ q "longitudeE7" ++ ": 1800000000,";
    "        " ++ q "accuracy" ++ ": 0";
    EmptyString
  ]%string.
Proof.
  assert (render cfg 0 = Ok (text [
    EmptyString;
    "        " ++ q "timestampMs" ++ ": " ++ q (str (start_time cfg)) ++ ",";
    "        " ++ q "latitudeE7" ++ ": 0,";
    "        " ++ q "longitudeE7" ++ ": 1800000000,";
    "        " ++ q "accuracy" ++ ": 0";
    EmptyString
  ]%string)) as H.
  { unfold render.
    change (select_pattern 0) with (Ok pattern_accuracy_only).
    cbn [bind]. unfold fill.
    rewrite latitude_rule_0, longitude_rule_0, altitude_rule_0, !round_IZR.
    rewrite format_accuracy_only, time_linear.
    replace (start_time cfg + 1000 * time_between_points_s cfg * 0)
      with (start_time cfg) by lia.
    reflexivity. }
  unfold record. rewrite H. reflexivity.
Qed.

(** C1: with [nr_points = 1] the separator is written after the only
    record too, so the text, read as JSON, has two elements under
    [locations], the second one empty. *)
Theorem separator_after_last_record :
  exists st : state,
    generate (with_nr_points 1 default) = Some (Finished st)
    /\ file st =
         [lead_in; record (with_nr_points 1 default) 0; separator; lead_out]
    /\ Json.parse (contents st) =
         Some (Json.Obj [
           ("locations"%string,
            Json.Arr [
              Json.Obj [
                ("timestampMs"%string, Json.Str "1379129160146");
                ("latitudeE7"%string, Json.Num 0);
                ("longitudeE7"%string, Json.Num 1800000000);
                ("accuracy"%string, Json.Num 0)
              ];
              Json.Obj []
            ])
         ]).
Proof.
  eexists. split; [apply generate_writes; simpl; lia|].
  split; [reflexivity|].
  unfold contents. cbn [file nr_points with_nr_points].
  change (Z.to_nat 1) with 1%nat.
  cbn [indices loop_writes flat_map app].
  rewrite record_0. vm_compute. reflexivity.
Qed.

(** C2, the claim refuted: with [nr_points = 0], and with [nr_points = -1],
    the run is not refused: it ends without an exception. *)
Lemma zero_records_not_rejected :
  ~ Runs.rejected (generate (with_nr_points 0 default))
  /\ ~ Runs.rejected (generate (with_nr_points (-1) default)).
Proof.
  split; intros [e H]; vm_compute in H; discriminate H.
Qed.

(** C2, as the script behaves: for [nr_points <= 0] no exception is raised
    and nothing is checked; the lead-in and the lead-out are written with
    no record between them, a JSON text whose [locations] array holds one
    empty object. *)
Theorem no_records_no_error (cfg : config) :
  nr_points cfg <= 0 ->
  generate cfg =
    Some (Finished {| file := [lead_in; lead_out]; points_written := 0 |})
  /\ Json.parse (String.concat EmptyString [lead_in; lead_out]) =
       Some (Json.Obj [("locations"%string, Json.Arr [Json.Obj []])]).
Proof.
  intros Hn. split; [|vm_compute; reflexivity].
  unfold generate, script.
  rewrite while_loop_skip by (unfold write; cbn [points_written]; lia).
  reflexivity.
Qed.

Lemma no_records_no_error_witness :
  generate (with_nr_points (-3) default) =
    Some (Finished {| file := [lead_in; lead_out]; points_written := 0 |})
  /\ Json.parse (String.concat EmptyString [lead_in; lead_out]) =
       Some (Json.Obj [("locations"%string, Json.Arr [Json.Obj []])]).
Proof. apply (no_records_no_error (with_nr_points (-3) default)). simpl. lia. Defined.

(** ** The changelog slicer *)

Import GenGithubChanges.

Lemma prefix_app (a b s : string) :
  String.prefix (a ++ b) s = true -> String.prefix a s = true.
Proof.
  revert s. induction a as [|x a IH]; intros s H.
  - destruct s; reflexivity.
  - destruct s as [|y s]; simpl in *; [discriminate|].
    destruct (ascii_dec x y); [now apply IH | discriminate].
Qed.

(** A line that is no header is no header of the version either. *)
Lemma startswith_version (line version : string) :
  startswith line "# " = false ->
  startswith line ("# " ++ version) = false.
Proof.
  unfold startswith. intros H.
  destruct (String.prefix ("# " ++ version) line) eqn:E; [|reflexivity].
  apply prefix_app in E. congruence.
Qed.

Lemma getitem_nth {A : Type} (l : list A) (k : nat) (x : A) :
  nth_error l k = Some x -> getitem l (Z.of_nat k) = Ok x.
Proof.
  intros H. unfold getitem.
  assert (k < List.length l)%nat by (apply nth_error_Some; congruence).
  assert ((Z.of_nat k <? 0) = false) as -> by (apply Z.ltb_ge; lia).
  assert ((0 <=? Z.of_nat k) = true) as -> by (apply Z.leb_le; lia).
  assert ((Z.of_nat k <? Z.of_nat (List.length l)) = true) as ->
    by (apply Z.ltb_lt; lia).
  cbn [andb]. rewrite Nat2Z.id, H. reflexivity.
Qed.

(** A run with the three arguments: the source is read, the target opened,
    and the loop started with [do_output] unbound. *)
Lemma run_conversion_loop (prog source target version : string)
    (extra : list string) (fs : files) (content : string) :
  fs source = Some content ->
  run_conversion (prog :: source :: target :: version :: extra) fs =
  copy_lines version (readlines content) None
    {| printed := []; target_file := Some [] |}.
Proof.
  intros Hfs. unfold run_conversion.
  assert ((len_list (prog :: source :: target :: version :: extra) <? 4)
          = false) as ->.
  { apply Z.ltb_ge. unfold len_list. cbn [List.length]. lia. }
  rewrite (getitem_nth _ 1 source), (getitem_nth _ 2 target),
    (getitem_nth _ 3 version) by reflexivity.
  rewrite Hfs. reflexivity.
Qed.

(** A file that is not empty has a first line. *)
Lemma readlines_from_nonempty (s line : string) :
  line <> EmptyString \/ s <> EmptyString -> readlines_from s line <> [].
Proof.
  revert line. induction s as [|c s IH]; intros line H.
  - cbn [readlines_from]. destruct line; [|discriminate].
    destruct H; congruence.
  - cbn [readlines_from]. destruct (is_newline c); [discriminate|].
    apply IH. left. destruct line; discriminate.
Qed.

Lemma readlines_nonempty (content : string) :
  content <> EmptyString -> exists line rest, readlines content = line :: rest.
Proof.
  intros H. destruct (readlines content) as [|line rest] eqn:E.
  - exfalso. revert E. apply readlines_from_nonempty. now right.
  - now exists line, rest.
Qed.

(** C8: when the source file has a first line and this line does not begin
    with [# ], [run_conversion] ends by the exception for the unbound
    variable [do_output], with the target opened and nothing written to
    it. *)
Theorem run_conversion_unbound (prog source target version : string)
    (extra : list string) (fs : files) (content line : string) :
  fs source = Some content ->
  hd_error (readlines content) = Some line ->
  startswith line "# " = false ->
  run_conversion (prog :: source :: target :: version :: extra) fs =
  Raised (UnboundLocalError "do_output")
    {| printed := []; target_file := Some [] |}.
Proof.
  intros Hfs Hline Hstart.
  rewrite (run_conversion_loop _ _ _ _ _ _ content Hfs).
  destruct (readlines content) as [|l rest]; [discriminate|].
  injection Hline as ->.
  cbn [copy_lines]. rewrite (startswith_version _ _ Hstart), Hstart.
  reflexivity.
Qed.

Lemma run_conversion_unbound_witness :
  run_conversion Runs.titled_argv Runs.titled_files =
  Raised (UnboundLocalError "do_output")
    {| printed := []; target_file := Some [] |}.
Proof.
  apply (run_conversion_unbound _ _ _ _ _ _ Runs.titled_changelog
           ("Changelog" ++ nl)%string); reflexivity.
Defined.

(** *** The slicer against its specification *)

Section Sections.

Variable version : string.

Lemma sections_cons (lines : list string) :
  forall line,
    Spec.sections (line :: lines) =
    (line :: Runs.preamble lines) :: Spec.sections (Runs.after_preamble lines).
Proof.
  induction lines as [|next rest IH]; intros line; [reflexivity|].
  change (Spec.sections (line :: next :: rest)) with
    (if startswith next "# " then [line] :: Spec.sections (next :: rest)
     else match Spec.sections (next :: rest) with
          | [] => [[line]]
          | s :: ss => (line :: s) :: ss
          end).
  cbn [Runs.preamble Runs.after_preamble].
  destruct (startswith next "# "); [reflexivity|].
  rewrite IH. reflexivity.
Qed.

(** The lines specified for a changelog that begins with a header. *)
Lemma section_lines_header (line : string) (lines : list string) :
  Spec.section_lines version (line :: lines) =
  ((if startswith line ("# " ++ version)
    then line :: Runs.preamble lines else [])
   ++ Spec.section_lines version (Runs.after_preamble lines))%list.
Proof.
  unfold Spec.section_lines. rewrite sections_cons.
  cbn [filter Spec.under_version].
  destruct (startswith line ("# " ++ version)); reflexivity.
Qed.

(** The loop, once [do_output] is bound to [b]: it copies the lines up to
    the first header when [b] holds, and from there on the lines of the
    sections of the version. *)
Lemma copy_lines_bound (lines : list string) :
  forall (b : bool) (st : state) (ws : list string),
    target_file st = Some ws ->
    copy_lines version lines (Some b) st =
    Finished {|
      printed := printed st;
      target_file :=
        Some (ws ++ (if b then Runs.preamble lines else [])
                 ++ Spec.section_lines version (Runs.after_preamble lines))
    |}.
Proof.
  induction lines as [|line rest IH]; intros b [pr tf] ws Htf;
    cbn [target_file printed] in *; subst tf.
  - cbn [copy_lines Runs.preamble Runs.after_preamble].
    destruct b; cbn; rewrite app_nil_r; reflexivity.
  - cbn [copy_lines Runs.preamble Runs.after_preamble].
    destruct (startswith line ("# " ++ version)) eqn:Ev.
    + assert (startswith line "# " = true) as Eh
        by (unfold startswith in *; now apply prefix_app in Ev).
      rewrite Eh.
      rewrite (IH true _ (ws ++ [line])) by reflexivity.
      rewrite section_lines_header, Ev.
      cbn [printed]. destruct b; cbn [app];
        rewrite <- !app_assoc; reflexivity.
    + destruct (startswith line "# ") eqn:Eh.
      * rewrite (IH false _ ws) by reflexivity.
        rewrite section_lines_header, Ev.
        cbn [printed]. destruct b; reflexivity.
      * destruct b.
        -- rewrite (IH true _ (ws ++ [line])) by reflexivity.
           cbn [printed app]. rewrite <- !app_assoc. reflexivity.
        -- rewrite (IH false _ ws) by reflexivity. reflexivity.
Qed.

(** On a header, the loop does not read [do_output] before binding it. *)
Lemma copy_lines_header (line : string) (rest : list string) (st : state) :
  startswith line "# " = true ->
  copy_lines version (line :: rest) None st =
  copy_lines version (line :: rest) (Some false) st.
Proof.
  intros Eh. cbn [copy_lines]. rewrite Eh.
  destruct (startswith line ("# " ++ version)); reflexivity.
Qed.

End Sections.

(** When the changelog is empty or begins with a header, the slicer writes
    the lines of the sections whose header begins with [# ] and the version:
    each such header line, and the lines after it up to the next line that
    begins with [# ]. *)
Theorem run_conversion_sections (prog source target version : string)
    (extra : list string) (fs : files) (content : string) :
  fs source = Some content ->
  (forall line, hd_error (readlines content) = Some line ->
                startswith line "# " = true) ->
  run_conversion (prog :: source :: target :: version :: extra) fs =
  Finished {|
    printed := [];
    target_file := Some (Spec.section_lines version (readlines content))
  |}.
Proof.
  intros Hfs Hhead.
  rewrite (run_conversion_loop _ _ _ _ _ _ content Hfs).
  destruct (readlines content) as [|line rest]; [reflexivity|].
  specialize (Hhead line eq_refl).
  rewrite copy_lines_header by exact Hhead.
  rewrite (copy_lines_bound version _ false _ []) by reflexivity.
  cbn [app printed Runs.after_preamble]. rewrite Hhead. reflexivity.
Qed.

(** C7: on a changelog with a title line above the first version, the lines
    to copy for version 1.0 are its header and the line under it, but
    [run_conversion] raises on the title line and writes nothing. *)
Theorem run_conversion_title_line :
  Spec.section_lines "1.0" (readlines Runs.titled_changelog) =
    [("# 1.0" ++ nl)%string; ("- fix" ++ nl)%string]
  /\ run_conversion Runs.titled_argv Runs.titled_files =
     Raised (UnboundLocalError "do_output")
       {| printed := []; target_file := Some [] |}.
Proof. split; reflexivity. Qed.

(** ** The two copies of the key lister *)

(** C10: the copy under [tool/] and the copy under [tools/] collect the same
    names from the same lines and print the same lines in the same order,
    whatever the files hold. *)
Theorem key_listers_agree (word : ascii -> bool) (fs : files) :
  (forall lines names,
      GoogleJsonUniqueKeys_tool.collect word lines names =
      GoogleJsonUniqueKeys_tools.collect word lines names)
  /\ GoogleJsonUniqueKeys_tool.script word fs =
     GoogleJsonUniqueKeys_tools.script word fs.
Proof. split; reflexivity. Qed.

(** The lister on a small file, with the ASCII word characters. *)
Example key_lister_sample :
  GoogleJsonUniqueKeys_tool.script ascii_word
    (fun _ => Some (String.concat nl [
       "{";
       "  " ++ q "locations" ++ ": [{";
       "    " ++ q "timestampMs" ++ ": " ++ q "1379129160146" ++ ",";
       "    " ++ q "accuracy" ++ ": 20";
       "  }, {";
       "    " ++ q "timestampMs" ++ ": " ++ q "1379129220146" ++ ",";
       "  }]";
       "}"
     ]%string)) =
  Finished ["accuracy : 8"; "locations : 9"; "timestampMs : 11"]%string.
Proof. reflexivity. Qed.

(** * Further properties *)

(** ** The generator *)

Import GenerateGoogleJson.

(** The record of an index has the shape at the place [i mod 6] of the
    rotation. *)
Lemma render_shape (cfg : config) (i : Z) :
  exists s : Spec.shape,
    nth_error Spec.patterns (Z.to_nat (i mod 6)) = Some s
    /\ render cfg i = Ok (Records.record_of_shape cfg s i).
Proof.
  unfold render, select_pattern. rewrite nr_patterns_6.
  destruct (mod_6_cases i) as [H|[H|[H|[H|[H|H]]]]]; rewrite H;
    eexists; (split; [reflexivity|]);
    cbn [getitem bind]; simpl;
    first [ unfold fill; rewrite format_accuracy_only; reflexivity
          | unfold fill; rewrite format_altitude; reflexivity
          | apply format_activity_record ].
Qed.

Lemma indices_seq (k : nat) :
  forall p, indices p k = map (fun j => p + Z.of_nat j) (seq 0 k).
Proof.
  induction k as [|k IH]; intros p; [reflexivity|].
  cbn [indices seq map]. rewrite IH, <- seq_shift, map_map.
  f_equal; [lia|]. apply map_ext. intros j. lia.
Qed.

Lemma loop_writes_length (cfg : config) (ixs : list Z) :
  List.length (loop_writes cfg ixs) = (2 * List.length ixs)%nat.
Proof.
  induction ixs as [|i ixs IH]; [reflexivity|].
  change (loop_writes cfg (i :: ixs))
    with (record cfg i :: separator :: loop_writes cfg ixs).
  cbn [List.length]. rewrite IH. lia.
Qed.

Lemma indices_length (k : nat) : forall p, List.length (indices p k) = k.
Proof. induction k as [|k IH]; intros p; cbn; [|rewrite IH]; reflexivity. Qed.

(** Every record begins with a newline, so no record is the separator. *)
Lemma record_not_separator (cfg : config) (i : Z) : record cfg i <> separator.
Proof.
  unfold record. destruct (render_shape cfg i) as (s & _ & ->).
  destruct s; discriminate.
Qed.

Lemma loop_writes_separators (cfg : config) (ixs : list Z) :
  count_occ string_dec (loop_writes cfg ixs) separator = List.length ixs.
Proof.
  induction ixs as [|i ixs IH]; [reflexivity|].
  change (loop_writes cfg (i :: ixs))
    with (record cfg i :: separator :: loop_writes cfg ixs).
  cbn [List.length].
  rewrite count_occ_cons_neq by apply record_not_separator.
  rewrite count_occ_cons_eq by reflexivity.
  now rewrite IH.
Qed.

(** X1: for every [nr_points >= 0] the script runs to its end without an
    exception; the counter ends at [nr_points], and the file holds the
    lead-in, then for each index from 0 to [nr_points - 1], in order, its
    record and the separator, then the lead-out. *)
Theorem generate_finishes (cfg : config) :
  0 <= nr_points cfg ->
  exists st : state,
    generate cfg = Some (Finished st)
    /\ points_written st = nr_points cfg
    /\ file st =
       ([lead_in]
        ++ flat_map (fun j => [record cfg (Z.of_nat j); separator])
             (seq 0 (Z.to_nat (nr_points cfg)))
        ++ [lead_out])%list.
Proof.
  intros Hn. eexists. split; [apply generate_writes, Hn|].
  split; [reflexivity|]. cbn [file]. do 2 f_equal.
  unfold loop_writes. rewrite indices_seq, flat_map_concat_map, map_map.
  rewrite <- flat_map_concat_map. reflexivity.
Qed.

Lemma generate_finishes_witness :
  exists st : state,
    generate (with_nr_points 2 default) = Some (Finished st)
    /\ points_written st = 2
    /\ file st =
       [lead_in; record (with_nr_points 2 default) 0; separator;
        record (with_nr_points 2 default) 1; separator; lead_out].
Proof. apply (generate_finishes (with_nr_points 2 default)). simpl. lia. Defined.

(** X2: for every [nr_points >= 0] the file is written in
    [2 * nr_points + 2] pieces, and the separator is written [nr_points]
    times: once per record, the last record included. *)
Theorem generate_separators (cfg : config) (st : state) :
  0 <= nr_points cfg ->
  generate cfg = Some (Finished st) ->
  Z.of_nat (List.length (file st)) = 2 * nr_points cfg + 2
  /\ Z.of_nat (count_occ string_dec (file st) separator) = nr_points cfg.
Proof.
  intros Hn Hgen. rewrite generate_writes in Hgen by exact Hn.
  injection Hgen as <-. cbn [file app]. split.
  - cbn [List.length].
    rewrite length_app, loop_writes_length, indices_length. cbn [List.length]. lia.
  - rewrite count_occ_cons_neq by discriminate.
    rewrite count_occ_app, loop_writes_separators, indices_length.
    cbn [count_occ].
    destruct (string_dec lead_out separator) as [E|_]; [discriminate E|].
    lia.
Qed.

Lemma generate_separators_witness :
  exists st : state,
    generate (with_nr_points 3 default) = Some (Finished st)
    /\ Z.of_nat (List.length (file st)) = 8
    /\ Z.of_nat (count_occ string_dec (file st) separator) = 3.
Proof.
  pose proof (generate_writes (with_nr_points 3 default) ltac:(simpl; lia))
    as Hgen.
  eexists. split; [exact Hgen|].
  apply (generate_separators (with_nr_points 3 default) _);
    [simpl; lia | exact Hgen].
Defined.


(** X3: every index, negative ones included, has a record: no lookup of a
    pattern and no filling in raises.  The record has the shape at place
    [i mod 6] of the rotation, filled in with the timestamp, the rounded
    coordinates and the accuracy of the index, and with the altitude and its
    accuracy or the activity timestamp when the shape has them. *)
Theorem render_by_shape (cfg : config) (i : Z) :
  exists s : Spec.shape,
    nth_error Spec.patterns (Z.to_nat (i mod 6)) = Some s
    /\ render cfg i = Ok (Records.record_of_shape cfg s i).
Proof. apply render_shape. Qed.


(** *** The rules *)

(** The three templates differ, so a pattern tells the place in the
    rotation. *)
Lemma plain_not_activity : pattern_accuracy_only <> pattern_activity.
Proof.
  intros E. apply (f_equal String.length) in E. vm_compute in E. discriminate E.
Qed.

Lemma altitude_not_activity : pattern_altitude <> pattern_activity.
Proof.
  intros E. apply (f_equal String.length) in E. vm_compute in E. discriminate E.
Qed.

Lemma select_activity_mod (i : Z) :
  select_pattern i = Ok pattern_activity -> i mod 6 = 5.
Proof.
  unfold select_pattern. rewrite nr_patterns_6.
  destruct (mod_6_cases i) as [H|[H|[H|[H|[H|H]]]]]; rewrite H; intros E;
    try exact eq_refl; exfalso.
  - change (getitem all_patterns 0) with (Ok pattern_accuracy_only) in E.
    apply plain_not_activity. congruence.
  - change (getitem all_patterns 1) with (Ok pattern_accuracy_only) in E.
    apply plain_not_activity. congruence.
  - change (getitem all_patterns 2) with (Ok pattern_altitude) in E.
    apply altitude_not_activity. congruence.
  - change (getitem all_patterns 3) with (Ok pattern_accuracy_only) in E.
    apply plain_not_activity. congruence.
  - change (getitem all_patterns 4) with (Ok pattern_altitude) in E.
    apply altitude_not_activity. congruence.
Qed.

Lemma mod_6_mod_3 (i : Z) : i mod 6 = 5 -> i mod 3 = 2.
Proof.
  intros H. rewrite (Z.div_mod i 6) by lia. rewrite H.
  replace (6 * (i / 6) + 5) with (2 + (2 * (i / 6) + 1) * 3) by lia.
  rewrite Z.mod_add by lia. reflexivity.
Qed.

(** X4: the records with the activity shape are those at the indices that
    leave 5 modulo 6, hence 2 modulo 3: for each of them the activity
    timestamp is the record's timestamp plus [time_between_points_s // 3],
    the other two values of the rule are never written. *)
Theorem activity_offset_third (cfg : config) (i : Z) :
  select_pattern i = Ok pattern_activity ->
  i mod 6 = 5
  /\ time_activity cfg i = time cfg i + time_between_points_s cfg / 3.
Proof.
  intros H. apply select_activity_mod in H. split; [exact H|].
  unfold time_activity, round_int, time_activity_rule.
  rewrite (mod_6_mod_3 i H). reflexivity.
Qed.

Lemma activity_offset_third_witness :
  11 mod 6 = 5
  /\ time_activity default 11 = time default 11 + time_between_points_s default / 3.
Proof. apply (activity_offset_third default 11). reflexivity. Defined.

(** X5: the divisor of [time_activity_rule] is 1, 2 or 3, never 0; with a
    spacing that is not negative the activity timestamp lies between the
    timestamp of its record and that of the next one. *)
Theorem time_activity_between (cfg : config) (i : Z) :
  0 <= time_between_points_s cfg ->
  1 <= 1 + i mod 3 <= 3
  /\ time cfg i <= time_activity cfg i <= time cfg (i + 1).
Proof.
  intros Hs. pose proof (Z.mod_pos_bound i 3 ltac:(lia)) as Hm.
  split; [lia|].
  unfold time_activity, round_int, time_activity_rule.
  rewrite !time_linear.
  assert (0 <= time_between_points_s cfg / (1 + i mod 3)
          <= time_between_points_s cfg) as Hd.
  { split; [apply Z.div_pos; lia|].
    apply Z.div_le_upper_bound; [lia|]. nia. }
  nia.
Qed.

Lemma time_activity_between_witness :
  1 <= 1 + 4 mod 3 <= 3
  /\ time default 4 <= time_activity default 4 <= time default (4 + 1).
Proof. apply (time_activity_between default 4). simpl. lia. Defined.

(** X6: the vertical accuracy is twice the place of the index in the
    period of 30, so it lies between 0 and 58; it and the accuracy repeat
    with period 30. *)
Theorem vertical_accuracy_range (i : Z) :
  vertical_accuracy_rule i = 2 * (i mod 30)
  /\ 0 <= vertical_accuracy_rule i <= 58
  /\ accuracy_rule (i + 30) = accuracy_rule i
  /\ vertical_accuracy_rule (i + 30) = vertical_accuracy_rule i.
Proof.
  pose proof (Z.mod_pos_bound i 30 ltac:(lia)) as Hm.
  assert (vertical_accuracy_rule i = 2 * (i mod 30)) as E.
  { unfold vertical_accuracy_rule, accuracy_rule.
    replace (20 * (i mod 30)) with (2 * (i mod 30) * 10) by lia.
    apply Z.div_mul. lia. }
  assert ((i + 30) mod 30 = i mod 30) as P.
  { replace (i + 30) with (i + 1 * 30) by lia. apply Z.mod_add. lia. }
  split; [exact E|]. split; [lia|].
  unfold vertical_accuracy_rule, accuracy_rule. rewrite P. split; reflexivity.
Qed.

(** *** The coordinates *)

(** Rounding keeps a number between the integers it lies between. *)
Lemma round_between (x : R) (a b : Z) :
  (IZR a <= x <= IZR b)%R -> a <= round x <= b.
Proof.
  intros [Ha Hb]. unfold round.
  pose proof (Zfloor_bound x) as [Hf1 Hf2].
  assert (a <= Zfloor x) as Hlo by (apply Zfloor_lub, Ha).
  assert (Zfloor x <= b) as Hhi by (apply le_IZR; lra).
  assert ((IZR (Zfloor x) < x)%R -> Zfloor x + 1 <= b) as Hup.
  { intros Hlt. destruct (Z.eq_dec (Zfloor x) b) as [E|N]; [|lia].
    rewrite E in Hlt. lra. }
  destruct (Rlt_dec (x - IZR (Zfloor x)) (1 / 2)) as [_|H1]; [lia|].
  destruct (Rlt_dec (1 / 2) (x - IZR (Zfloor x))) as [H2|H2].
  - assert (IZR (Zfloor x) < x)%R as Hlt by lra.
    specialize (Hup Hlt). lia.
  - destruct (Z.even (Zfloor x)); [lia|].
    assert (IZR (Zfloor x) < x)%R as Hlt by lra.
    specialize (Hup Hlt). lia.
Qed.

(** X7: with the floats read as real numbers, the latitude written is within
    90 degrees, the longitude within 180 degrees (both in units of 1e-7
    degree), and the altitude within 300, at every index. *)
Theorem coordinates_bounded (i : Z) :
  -900000000 <= round (latitude_rule i) <= 900000000
  /\ -1800000000 <= round (longitude_rule i) <= 1800000000
  /\ -300 <= round (altitude_rule i) <= 300.
Proof.
  split; [|split]; apply round_between.
  - unfold latitude_rule. change (10000000 * 90) with 900000000.
    pose proof (SIN_bound (IZR i / 1000)). lra.
  - unfold longitude_rule. change (10000000 * 180) with 1800000000.
    pose proof (COS_bound (IZR i / 1000)). lra.
  - unfold altitude_rule. pose proof (SIN_bound (IZR i)). lra.
Qed.

(** ** The changelog slicer *)

Import GenGithubChanges.

(** X8: called with fewer than three arguments, [run_conversion] prints the
    usage line and returns: no file is opened and nothing is raised. *)
Theorem run_conversion_too_few_arguments (argv : list string) (fs : files) :
  (List.length argv < 4)%nat ->
  run_conversion argv fs =
  Finished {| printed := [usage]; target_file := None |}.
Proof.
  intros H. unfold run_conversion.
  assert ((len_list argv <? 4) = true) as ->
    by (apply Z.ltb_lt; unfold len_list; lia).
  reflexivity.
Qed.

Lemma run_conversion_too_few_arguments_witness :
  run_conversion ["gen_github_changes.py"; "CHANGELOG.md"; "changes.md"]%string
    Slices.changelog_files =
  Finished {| printed := [usage]; target_file := None |}.
Proof. apply run_conversion_too_few_arguments. simpl. lia. Defined.

(** Without the source file the run stops before the target is opened. *)
Lemma run_conversion_no_source (prog source target version : string)
    (extra : list string) (fs : files) :
  fs source = None ->
  run_conversion (prog :: source :: target :: version :: extra) fs =
  Raised (FileNotFoundError source) {| printed := []; target_file := None |}.
Proof.
  intros Hfs. unfold run_conversion.
  assert ((len_list (prog :: source :: target :: version :: extra) <? 4)
          = false) as ->.
  { apply Z.ltb_ge. unfold len_list. cbn [List.length]. lia. }
  rewrite (getitem_nth _ 1 source), (getitem_nth _ 2 target),
    (getitem_nth _ 3 version) by reflexivity.
  rewrite Hfs. reflexivity.
Qed.



(** X10: when the changelog is empty or begins with a header, the run ends
    without an exception and the target file holds the sections of the
    version, whole and in their order: each line that begins with [# ] and
    the version, and the lines after it up to the next line that begins
    with [# ].  A version that another version's name begins with takes
    the sections of both. *)
Theorem slicer_copies_sections (prog source target version : string)
    (extra : list string) (fs : files) (content : string) :
  fs source = Some content ->
  (forall line, hd_error (readlines content) = Some line ->
                startswith line "# " = true) ->
  run_conversion (prog :: source :: target :: version :: extra) fs =
  Finished {|
    printed := [];
    target_file := Some (Spec.section_lines version (readlines content))
  |}.
Proof.
  intros Hfs Hhead.
  rewrite (run_conversion_loop _ _ _ _ _ _ content Hfs).
  destruct (readlines content) as [|line rest]; [reflexivity|].
  rewrite copy_lines_header by (apply Hhead; reflexivity).
  rewrite (copy_lines_bound version _ false _ []) by reflexivity.
  cbn [app printed Runs.after_preamble].
  rewrite (Hhead line eq_refl). reflexivity.
Qed.

Lemma slicer_copies_sections_witness :
  run_conversion (Slices.argv_for "1.0") Slices.changelog_files =
  Finished {|
    printed := [];
    target_file :=
      Some [("# 1.0.1" ++ nl)%string; ("- patch" ++ nl)%string;
            ("# 1.0" ++ nl)%string; ("- fix" ++ nl)%string;
            ("- more" ++ nl)%string]
  |}.
Proof.
  change (run_conversion (Slices.argv_for "1.0") Slices.changelog_files =
          Finished {|
            printed := [];
            target_file :=
              Some (Spec.section_lines "1.0" (readlines Slices.changelog))
          |}).
  apply (slicer_copies_sections _ _ _ _ _ _ Slices.changelog).
  - reflexivity.
  - intros line H. vm_compute in H. injection H as <-. reflexivity.
Defined.

(** The loop with [do_output] bound to false, on lines of which none is a
    header of the version, writes nothing. *)
Lemma copy_lines_no_version (version : string) (lines : list string) :
  forall st : state,
    Forall (fun line => startswith line ("# " ++ version) = false) lines ->
    copy_lines version lines (Some false) st = Finished st.
Proof.
  induction lines as [|line rest IH]; intros st H; [reflexivity|].
  inversion H as [|? ? Hline Hrest]; subst.
  cbn [copy_lines]. rewrite Hline.
  destruct (startswith line "# "); apply IH, Hrest.
Qed.

(** X11: when the changelog begins with a header and no line begins with
    [# ] and the version, the run ends without an exception and leaves the
    target file empty. *)
Theorem run_conversion_unknown_version (prog source target version : string)
    (extra : list string) (fs : files) (content : string) :
  fs source = Some content ->
  (forall line, hd_error (readlines content) = Some line ->
                startswith line "# " = true) ->
  Forall (fun line => startswith line ("# " ++ version) = false)
    (readlines content) ->
  run_conversion (prog :: source :: target :: version :: extra) fs =
  Finished {| printed := []; target_file := Some [] |}.
Proof.
  intros Hfs Hhead Hno.
  rewrite (run_conversion_loop _ _ _ _ _ _ content Hfs).
  destruct (readlines content) as [|line rest]; [reflexivity|].
  rewrite copy_lines_header by (apply Hhead; reflexivity).
  apply copy_lines_no_version, Hno.
Qed.

Lemma run_conversion_unknown_version_witness :
  run_conversion (Slices.argv_for "2.0") Slices.changelog_files =
  Finished {| printed := []; target_file := Some [] |}.
Proof.
  apply (run_conversion_unknown_version _ _ _ _ _ _ Slices.changelog).
  - reflexivity.
  - intros line H. vm_compute in H. injection H as <-. reflexivity.
  - vm_compute. repeat constructor.
Defined.

(** What the loop has written when it stops, by its end or by the
    exception, is what was written before and then some of the lines, in
    their order. *)
Lemma copy_lines_subseq (version : string) (lines : list string) :
  forall (d : option bool) (st : state) (ws0 : list string),
    target_file st = Some ws0 ->
    exists ws,
      target_file (Slices.final_state (copy_lines version lines d st))
      = Some (ws0 ++ ws)
      /\ Slices.subseq ws lines.
Proof.
  induction lines as [|line rest IH]; intros d st ws0 Hst.
  - exists []. cbn. rewrite app_nil_r. split; [exact Hst | constructor].
  - cbn [copy_lines].
    set (d' := if startswith line ("# " ++ version) then Some true
               else if startswith line "# " then Some false else d).
    destruct d' as [[|]|].
    + destruct (IH (Some true) (write line st) (ws0 ++ [line])) as (ws & E & S).
      { unfold write. cbn. rewrite Hst. reflexivity. }
      exists (line :: ws). rewrite E, <- app_assoc. split; [reflexivity|].
      now constructor.
    + destruct (IH (Some false) st ws0 Hst) as (ws & E & S).
      exists ws. split; [exact E | now constructor].
    + exists []. cbn. rewrite app_nil_r. split; [exact Hst|].
      clear. induction (line :: rest); now constructor.
Qed.

(** X12: whatever the changelog and however the run ends, the target file
    holds lines of the source file only, each at most as often as the
    source has it, in the order of the source. *)
Theorem run_conversion_copies_in_order (prog source target version : string)
    (extra : list string) (fs : files) (content : string) :
  fs source = Some content ->
  exists ws,
    target_file
      (Slices.final_state
         (run_conversion (prog :: source :: target :: version :: extra) fs))
    = Some ws
    /\ Slices.subseq ws (readlines content).
Proof.
  intros Hfs. rewrite (run_conversion_loop _ _ _ _ _ _ content Hfs).
  destruct (copy_lines_subseq version (readlines content) None
              {| printed := []; target_file := Some [] |} [] eq_refl)
    as (ws & E & S).
  exists ws. split; [exact E | exact S].
Qed.

Lemma run_conversion_copies_in_order_witness :
  exists ws,
    target_file
      (Slices.final_state
         (run_conversion (Slices.argv_for "1.0") Slices.changelog_files))
    = Some ws
    /\ Slices.subseq ws (readlines Slices.changelog).
Proof.
  apply (run_conversion_copies_in_order _ _ _ _ _ _ Slices.changelog).
  reflexivity.
Defined.



(** ** The key lister *)

Section KeyLister.

Variable word : ascii -> bool.

Lemma format_name_length (a b : string) :
  format "{} : {}" [a; b] [] = Ok (a ++ " : " ++ b)%string.
Proof.
  vm_compute. repeat (rewrite !append_assoc; cbn [String.append]).
  rewrite append_nil_r. reflexivity.
Qed.

Lemma print_names_lines (names : list string) :
  forall stdout,
    GoogleJsonUniqueKeys_tool.print_names names stdout =
    Finished (stdout ++ map Keys.line_of names).
Proof.
  induction names as [|name names IH]; intros stdout.
  - cbn. now rewrite app_nil_r.
  - cbn [GoogleJsonUniqueKeys_tool.print_names map].
    rewrite format_name_length, IH, <- app_assoc. reflexivity.
Qed.

Local Notation "'add_first_word'" := (Keys.add_first_word word)
  (only parsing).
Local Notation "'leq'" := Keys.leq (only parsing).

Lemma collect_fold (lines : list string) :
  forall names,
    GoogleJsonUniqueKeys_tool.collect word lines names =
    Ok (fold_left add_first_word lines names).
Proof.
  induction lines as [|line lines IH]; intros names; [reflexivity|].
  cbn [GoogleJsonUniqueKeys_tool.collect fold_left]. unfold Keys.add_first_word at 2.
  destruct (findall word line) as [|w m]; [apply IH|].
  assert ((len_list (w :: m) >? 0) = true) as ->.
  { unfold len_list. cbn [List.length]. apply Z.gtb_lt. lia. }
  change (getitem (w :: m) 0) with (getitem (w :: m) (Z.of_nat 0)).
  rewrite (getitem_nth _ 0 w) by reflexivity. cbn [bind]. apply IH.
Qed.

Lemma set_add_in (x y : string) (s : list string) :
  In x (set_add y s) <-> x = y \/ In x s.
Proof.
  unfold set_add. destruct (existsb (String.eqb y) s) eqn:E.
  - split; [now right|]. intros [->|H]; [|exact H].
    apply existsb_exists in E as (z & Hz & Ez).
    apply String.eqb_eq in Ez. now subst.
  - cbn. split; intros [H|H]; auto.
Qed.

Lemma set_add_nodup (y : string) (s : list string) :
  NoDup s -> NoDup (set_add y s).
Proof.
  intros H. unfold set_add. destruct (existsb (String.eqb y) s) eqn:E;
    [exact H|].
  constructor; [|exact H]. intros Hin.
  assert (existsb (String.eqb y) s = true) as E'.
  { apply existsb_exists. exists y. split; [exact Hin|apply String.eqb_refl]. }
  congruence.
Qed.

Lemma fold_nodup (lines : list string) :
  forall names, NoDup names -> NoDup (fold_left add_first_word lines names).
Proof.
  induction lines as [|line lines IH]; intros names H; [exact H|].
  cbn [fold_left]. apply IH. unfold Keys.add_first_word.
  destruct (findall word line); [exact H | now apply set_add_nodup].
Qed.

Lemma fold_in (lines : list string) :
  forall names name,
    In name (fold_left add_first_word lines names) <->
    In name names
    \/ exists line, In line lines
                    /\ hd_error (findall word line) = Some name.
Proof.
  induction lines as [|line lines IH]; intros names name.
  - cbn. split; [now left|]. intros [H|(l & [] & _)]. exact H.
  - cbn [fold_left]. rewrite IH. unfold Keys.add_first_word.
    destruct (findall word line) as [|w m] eqn:E.
    + split.
      * intros [H|(l & Hl & Hw)]; [now left|].
        right. exists l. split; [now right | exact Hw].
      * intros [H|(l & [->|Hl] & Hw)]; [now left| |].
        -- rewrite E in Hw. discriminate Hw.
        -- right. now exists l.
    + rewrite set_add_in. split.
      * intros [[->|H]|(l & Hl & Hw)].
        -- right. exists line. split; [now left|]. now rewrite E.
        -- now left.
        -- right. exists l. split; [now right | exact Hw].
      * intros [H|(l & [->|Hl] & Hw)].
        -- left. now right.
        -- rewrite E in Hw. injection Hw as ->. left. now left.
        -- right. now exists l.
Qed.

(** *** Sorting *)

Lemma insert_sorted_perm (x : string) (l : list string) :
  Permutation (insert_sorted x l) (x :: l).
Proof.
  induction l as [|y l IH]; cbn [insert_sorted]; [reflexivity|].
  destruct (String.leb x y); [reflexivity|].
  rewrite IH. apply perm_swap.
Qed.

Lemma sorted_perm (l : list string) : Permutation (sorted l) l.
Proof.
  induction l as [|x l IH]; [reflexivity|].
  unfold sorted in *. cbn [fold_right].
  rewrite insert_sorted_perm. now constructor.
Qed.

Lemma insert_sorted_sorted (x : string) (l : list string) :
  Sorted leq l -> Sorted leq (insert_sorted x l).
Proof.
  induction l as [|y l IH]; intros H; cbn [insert_sorted].
  - repeat constructor.
  - destruct (String.leb x y) eqn:E.
    + constructor; [exact H|]. constructor. exact E.
    + assert (leq y x) as Hyx
        by (destruct (String.leb_total x y) as [T|T]; [congruence|exact T]).
      inversion H as [|? ? Hs Hhd]; subst.
      constructor; [now apply IH|].
      destruct l as [|z l]; cbn [insert_sorted].
      * constructor. exact Hyx.
      * destruct (String.leb x z); constructor; [exact Hyx|].
        now inversion Hhd.
Qed.

Lemma sorted_sorted (l : list string) : Sorted leq (sorted l).
Proof.
  induction l as [|x l IH]; [constructor|].
  unfold sorted in *. cbn [fold_right]. now apply insert_sorted_sorted.
Qed.

(** *** Matches *)

Lemma all_in_app (s t : string) :
  Keys.all_in word (s ++ t) = Keys.all_in word s && Keys.all_in word t.
Proof.
  induction s as [|c s IH]; [reflexivity|].
  cbn [String.append Keys.all_in]. rewrite IH. apply andb_assoc.
Qed.

Lemma findall_from_words (s : string) :
  forall run,
    Keys.all_in word run = true ->
    Forall (fun w => w <> EmptyString /\ Keys.all_in word w = true)
      (findall_from word s run).
Proof.
  induction s as [|c s IH]; intros run Hrun; cbn [findall_from].
  - destruct run; cbn [flush]; constructor; [|constructor].
    split; [discriminate | exact Hrun].
  - destruct (word c) eqn:Ec.
    + apply IH. rewrite all_in_app, Hrun. cbn. now rewrite Ec.
    + apply Forall_app. split; [|now apply IH].
      destruct run; cbn [flush]; constructor; [|constructor].
      split; [discriminate | exact Hrun].
Qed.

End KeyLister.

(** What the two copies print for a file that can be opened. *)
Lemma script_prints (word : ascii -> bool) (fs : files)
    (content : string) :
  fs "Locatiegeschiedenis.json"%string = Some content ->
  GoogleJsonUniqueKeys_tool.script word fs =
    Finished (map Keys.line_of (Keys.names_of word content))
  /\ GoogleJsonUniqueKeys_tools.script word fs =
    Finished (map Keys.line_of (Keys.names_of word content)).
Proof.
  intros Hfs.
  assert (GoogleJsonUniqueKeys_tool.script word fs =
          Finished (map Keys.line_of (Keys.names_of word content))) as H.
  { unfold GoogleJsonUniqueKeys_tool.script, Keys.names_of.
    change GoogleJsonUniqueKeys_tool.filename
      with "Locatiegeschiedenis.json"%string.
    rewrite Hfs, collect_fold. apply print_names_lines. }
  split; exact H.
Qed.

(** X14: when the file can be opened, both copies of the lister run to
    their end without an exception and print, for each name they have
    collected, the name, a colon between blanks, and the number of
    characters of the name. *)
Theorem key_lister_prints (word : ascii -> bool) (fs : files)
    (content : string) :
  fs "Locatiegeschiedenis.json"%string = Some content ->
  GoogleJsonUniqueKeys_tool.script word fs =
    Finished (map Keys.line_of (Keys.names_of word content))
  /\ GoogleJsonUniqueKeys_tools.script word fs =
    Finished (map Keys.line_of (Keys.names_of word content)).
Proof. apply script_prints. Qed.

Lemma key_lister_prints_witness :
  GoogleJsonUniqueKeys_tool.script ascii_word
    (fun _ => Some Slices.changelog) =
    Finished (map Keys.line_of (Keys.names_of ascii_word Slices.changelog))
  /\ GoogleJsonUniqueKeys_tools.script ascii_word
    (fun _ => Some Slices.changelog) =
    Finished (map Keys.line_of (Keys.names_of ascii_word Slices.changelog)).
Proof. apply key_lister_prints. reflexivity. Defined.

(** The names are in ascending order, none twice. *)
Lemma names_of_ascending (word : ascii -> bool) (content : string) :
  Sorted (fun a b => String.leb a b = true) (Keys.names_of word content)
  /\ NoDup (Keys.names_of word content).
Proof.
  unfold Keys.names_of. rewrite collect_fold. split.
  - apply sorted_sorted.
  - apply (Permutation_NoDup (l := fold_left (Keys.add_first_word word)
                                     (readlines content) [])).
    + symmetry. apply sorted_perm.
    + apply fold_nodup. constructor.
Qed.

(** X15: the names are printed in ascending order (the order of the
    character codes), and no name is printed twice. *)
Theorem names_ascending (word : ascii -> bool) (content : string) :
  Sorted (fun a b => String.leb a b = true) (Keys.names_of word content)
  /\ NoDup (Keys.names_of word content).
Proof. apply names_of_ascending. Qed.

(** The names are the first matches of the lines. *)
Lemma names_of_in (word : ascii -> bool) (content name : string) :
  In name (Keys.names_of word content) <->
  exists line, In line (readlines content)
               /\ hd_error (findall word line) = Some name.
Proof.
  unfold Keys.names_of. rewrite collect_fold.
  split.
  - intros H. apply (Permutation_in _ (sorted_perm _)) in H.
    apply fold_in in H as [[]|H]. exact H.
  - intros H. apply (Permutation_in _ (Permutation_sym (sorted_perm _))).
    apply fold_in. now right.
Qed.

(** X16: a name is printed exactly when it is the first match of [\w+] in
    some line of the file; lines without a match add nothing, and the later
    matches of a line are not looked at. *)
Theorem names_first_words (word : ascii -> bool) (content name : string) :
  In name (Keys.names_of word content) <->
  exists line, In line (readlines content)
               /\ hd_error (findall word line) = Some name.
Proof. apply names_of_in. Qed.

(** X17: every name printed is a string of characters that [\w] matches,
    at least one. *)
Theorem names_are_words (word : ascii -> bool) (content : string) :
  Forall (fun name => name <> EmptyString /\ Keys.all_in word name = true)
    (Keys.names_of word content).
Proof.
  apply Forall_forall. intros name H.
  apply names_of_in in H as (line & _ & Hw).
  pose proof (findall_from_words word line EmptyString eq_refl) as F.
  fold (findall word line) in F.
  destruct (findall word line) as [|w m]; [discriminate Hw|].
  injection Hw as <-. now inversion F.
Qed.

(** ** Reading a file line by line *)

Lemma join_cons (x : string) (ws : list string) :
  Lines.join (x :: ws) = (x ++ Lines.join ws)%string.
Proof.
  unfold Lines.join. destruct ws as [|y ws]; cbn [String.concat].
  - now rewrite append_nil_r.
  - reflexivity.
Qed.

(** The lines of a text, put together again, are the text. *)
Lemma readlines_from_join (s : string) :
  forall line, Lines.join (readlines_from s line) = (line ++ s)%string.
Proof.
  induction s as [|c s IH]; intros line; cbn [readlines_from].
  - destruct line; [reflexivity|]. unfold Lines.join. cbn [String.concat].
    now rewrite append_nil_r.
  - destruct (is_newline c).
    + rewrite join_cons, IH, append_assoc. reflexivity.
    + rewrite IH, append_assoc. reflexivity.
Qed.

Lemma readlines_join (s : string) : Lines.join (readlines s) = s.
Proof. apply readlines_from_join. Qed.

(** The characters already read go before the first line still to come. *)
Lemma readlines_from_acc (s : string) :
  forall line,
    readlines_from s line =
    match readlines_from s EmptyString with
    | [] => flush line
    | l :: ls => (line ++ l)%string :: ls
    end.
Proof.
  induction s as [|c s IH]; intros line; cbn [readlines_from String.append].
  - destruct line; reflexivity.
  - destruct (is_newline c); [reflexivity|].
    rewrite IH. rewrite (IH (String c EmptyString)).
    destruct (readlines_from s EmptyString) as [|l ls].
    + destruct line; reflexivity.
    + rewrite append_assoc. reflexivity.
Qed.

Lemma is_newline_nl (c : ascii) :
  is_newline c = true -> String c EmptyString = nl.
Proof.
  unfold is_newline. intros H. apply Ascii.eqb_eq in H. now subst.
Qed.

Lemma readlines_well_split (s : string) : Lines.well_split (readlines s).
Proof.
  unfold readlines.
  induction s as [|c s IH]; cbn [readlines_from String.append].
  - constructor.
  - destruct (is_newline c) eqn:Ec.
    + rewrite (is_newline_nl c Ec).
      apply (Lines.well_split_cons EmptyString); [reflexivity | exact IH].
    + rewrite readlines_from_acc.
      destruct (readlines_from s EmptyString) as [|l ls].
      * apply Lines.well_split_last; [discriminate|].
        cbn. now rewrite Ec.
      * inversion IH as [|u Hu Hn|body ls' Hb Hls]; subst.
        -- apply Lines.well_split_last; [discriminate|].
           cbn. now rewrite Ec, Hn.
        -- apply (Lines.well_split_cons (String c body)); [|exact Hls].
           cbn. now rewrite Ec, Hb.
Qed.

Lemma readlines_from_no_newline (u : string) :
  forall line,
    Lines.no_newline u = true ->
    readlines_from u line = flush (line ++ u).
Proof.
  induction u as [|c u IH]; intros line H; cbn [readlines_from].
  - rewrite append_nil_r. destruct line; reflexivity.
  - cbn in H. apply andb_prop in H as [Hc Hu].
    apply negb_true_iff in Hc. rewrite Hc, IH by exact Hu.
    now rewrite append_assoc.
Qed.

Lemma readlines_from_line (body rest : string) :
  forall line,
    Lines.no_newline body = true ->
    readlines_from (body ++ nl ++ rest) line =
    (line ++ body ++ nl)%string :: readlines_from rest EmptyString.
Proof.
  induction body as [|c body IH]; intros line H.
  - reflexivity.
  - cbn in H. apply andb_prop in H as [Hc Hb].
    apply negb_true_iff in Hc.
    cbn [String.append readlines_from]. rewrite Hc, IH by exact Hb.
    now rewrite append_assoc.
Qed.

(** Lines cut by [readlines], written out one after the other and read
    again, are the same lines. *)
Lemma readlines_of_join (ws : list string) :
  Lines.well_split ws -> readlines (Lines.join ws) = ws.
Proof.
  induction 1 as [|u Hu Hn|body ls Hb Hls IH].
  - reflexivity.
  - unfold Lines.join, readlines. cbn [String.concat].
    rewrite readlines_from_no_newline by exact Hn.
    destruct u; [congruence | reflexivity].
  - rewrite join_cons, append_assoc. unfold readlines.
    rewrite readlines_from_line by exact Hb.
    fold (readlines (Lines.join ls)). now rewrite IH.
Qed.

Lemma subseq_nil_r {A : Type} (ws : list A) : Slices.subseq ws [] -> ws = [].
Proof. intros H. now inversion H. Qed.

Lemma subseq_well_split (ws ls : list string) :
  Slices.subseq ws ls -> Lines.well_split ls -> Lines.well_split ws.
Proof.
  induction 1 as [|x ws ls S IH|x ws ls S IH]; intros W.
  - constructor.
  - apply IH. inversion W; subst; [constructor | assumption].
  - inversion W as [|u Hu Hn|body ls' Hb Hls]; subst.
    + apply subseq_nil_r in S. subst. now constructor.
    + constructor; [exact Hb | now apply IH].
Qed.

(** ** Slicing twice *)

Section Twice.

Variable version : string.

(** Once [do_output] holds, lines that are headers of the version or no
    headers are all copied. *)
Lemma copy_lines_keepable (lines : list string) :
  forall (st : state) (ws0 : list string),
    target_file st = Some ws0 ->
    Forall (Lines.keepable version) lines ->
    copy_lines version lines (Some true) st =
    Finished {| printed := printed st; target_file := Some (ws0 ++ lines) |}.
Proof.
  induction lines as [|line rest IH]; intros [pr tf] ws0 Hst H;
    cbn [target_file printed] in *; subst tf.
  - cbn. now rewrite app_nil_r.
  - inversion H as [|? ? Hline Hrest]; subst. cbn [copy_lines].
    assert ((if startswith line ("# " ++ version) then Some true
             else if startswith line "# " then Some false else Some true)
            = Some true) as ->.
    { destruct Hline as [-> | E]; [reflexivity|].
      rewrite (startswith_version _ _ E), E. reflexivity. }
    rewrite (IH _ (ws0 ++ [line])) by (cbn; auto).
    cbn [printed]. now rewrite <- app_assoc.
Qed.

(** What a run of the loop that reaches its end has written: lines that a
    second run keeps, the first of them a header of the version unless
    [do_output] held from the start. *)
Lemma copy_lines_written (lines : list string) :
  forall (d : option bool) (st st' : state) (ws0 : list string),
    target_file st = Some ws0 ->
    copy_lines version lines d st = Finished st' ->
    exists ws,
      st' = {| printed := printed st; target_file := Some (ws0 ++ ws) |}
      /\ Forall (Lines.keepable version) ws
      /\ (d <> Some true ->
          forall h t, ws = h :: t ->
                      startswith h ("# " ++ version) = true).
Proof.
  induction lines as [|line rest IH]; intros d [pr tf] st' ws0 Hst Hrun;
    cbn [target_file printed] in *; subst tf.
  - injection Hrun as <-. exists []. rewrite app_nil_r.
    split; [reflexivity|]. split; [constructor|]. intros _ h t E. discriminate E.
  - cbn [copy_lines] in Hrun.
    unfold write in Hrun; cbn [printed target_file option_map] in Hrun.
    destruct (startswith line ("# " ++ version)) eqn:Ev.
    + destruct (IH _ {| printed := pr; target_file := Some (ws0 ++ [line]) |}
                 _ _ eq_refl Hrun) as (ws & -> & F & _).
      exists (line :: ws). cbn [printed]. rewrite <- app_assoc.
      split; [reflexivity|]. split; [constructor; [now left | exact F]|].
      intros _ h t E. injection E as <- _. exact Ev.
    + destruct (startswith line "# ") eqn:Eh.
      * destruct (IH _ {| printed := pr; target_file := Some ws0 |}
                 _ _ eq_refl Hrun) as (ws & -> & F & Hd).
        exists ws. split; [reflexivity|]. split; [exact F|].
        intros _. apply Hd. discriminate.
      * destruct d as [[|]|]; [| |discriminate Hrun].
        -- destruct (IH _ {| printed := pr; target_file := Some (ws0 ++ [line]) |}
                 _ _ eq_refl Hrun) as (ws & -> & F & _).
           exists (line :: ws). cbn [printed]. rewrite <- app_assoc.
           split; [reflexivity|].
           split; [constructor; [now right | exact F]|].
           intros N. congruence.
        -- destruct (IH _ {| printed := pr; target_file := Some ws0 |}
                 _ _ eq_refl Hrun) as (ws & -> & F & Hd).
           exists ws. split; [reflexivity|]. split; [exact F|].
           intros _. apply Hd. discriminate.
Qed.

End Twice.

(** X18: the target file of a run that reached its end, given as source to
    a second run with the same version, is copied whole: the second target
    file holds the same lines, and the second run raises nothing. *)
Theorem run_conversion_twice (prog source target version : string)
    (extra : list string) (fs : files) (content : string) (st : state)
    (ws : list string)
    (prog' source' target' : string) (extra' : list string) (fs' : files) :
  fs source = Some content ->
  run_conversion (prog :: source :: target :: version :: extra) fs
  = Finished st ->
  target_file st = Some ws ->
  fs' source' = Some (Lines.join ws) ->
  run_conversion (prog' :: source' :: target' :: version :: extra') fs'
  = Finished {| printed := []; target_file := Some ws |}.
Proof.
  intros Hfs Hrun Hws Hfs'.
  rewrite (run_conversion_loop _ _ _ _ _ _ content Hfs) in Hrun.
  rewrite (run_conversion_loop _ _ _ _ _ _ (Lines.join ws) Hfs').
  destruct (copy_lines_written version _ _
              {| printed := []; target_file := Some [] |} _ [] eq_refl Hrun)
    as (ws1 & -> & F & Hd).
  cbn [target_file app] in Hws. injection Hws as ->.
  destruct (copy_lines_subseq version (readlines content) None
              {| printed := []; target_file := Some [] |} [] eq_refl)
    as (ws2 & E & S).
  rewrite Hrun in E. cbn in E. injection E as <-.
  rewrite readlines_of_join
    by (eapply subseq_well_split; [exact S | apply readlines_well_split]).
  destruct ws as [|h t]; [reflexivity|].
  assert (startswith h ("# " ++ version) = true) as Ev
    by (apply (Hd ltac:(discriminate) h t eq_refl)).
  assert (startswith h "# " = true) as Eh
    by (unfold startswith in *; now apply prefix_app in Ev).
  rewrite copy_lines_header by exact Eh.
  cbn [copy_lines]. rewrite Ev.
  change (if true then write h {| printed := []; target_file := Some [] |}
          else {| printed := []; target_file := Some [] |})
    with {| printed := []; target_file := Some [h] |}.
  inversion F as [|? ? _ Ft]; subst.
  rewrite (copy_lines_keepable version t _ [h]) by (cbn; auto).
  reflexivity.
Qed.

Lemma run_conversion_twice_witness :
  run_conversion (Slices.argv_for "1.0")
    (fun _ =>
       Some (Lines.join
               (Spec.section_lines "1.0" (readlines Slices.changelog))))
  = Finished {|
      printed := [];
      target_file :=
        Some (Spec.section_lines "1.0" (readlines Slices.changelog))
    |}.
Proof.
  apply (run_conversion_twice
           "gen_github_changes.py" "CHANGELOG.md" "changes.md" "1.0" []
           Slices.changelog_files Slices.changelog
           {| printed := [];
              target_file :=
                Some (Spec.section_lines "1.0" (readlines Slices.changelog)) |});
    reflexivity.
Defined.

(** X19: a changelog that begins with a header of the version and has no
    header of another version is copied whole: the target file has the
    text of the source file. *)
Theorem run_conversion_whole_file (prog source target version : string)
    (extra : list string) (fs : files) (content h : string) :
  fs source = Some content ->
  hd_error (readlines content) = Some h ->
  startswith h ("# " ++ version) = true ->
  Forall (Lines.keepable version) (readlines content) ->
  exists ws,
    run_conversion (prog :: source :: target :: version :: extra) fs
    = Finished {| printed := []; target_file := Some ws |}
    /\ Lines.join ws = content.
Proof.
  intros Hfs Hh Ev F. exists (readlines content).
  split; [|apply readlines_join].
  rewrite (run_conversion_loop _ _ _ _ _ _ content Hfs).
  destruct (readlines content) as [|l t]; [discriminate Hh|].
  injection Hh as ->.
  assert (startswith h "# " = true) as Eh
    by (unfold startswith in *; now apply prefix_app in Ev).
  rewrite copy_lines_header by exact Eh.
  cbn [copy_lines]. rewrite Ev.
  change (if true then write h {| printed := []; target_file := Some [] |}
          else {| printed := []; target_file := Some [] |})
    with {| printed := []; target_file := Some [h] |}.
  inversion F as [|? ? _ Ft]; subst.
  rewrite (copy_lines_keepable version t _ [h]) by (cbn; auto).
  reflexivity.
Qed.

Lemma run_conversion_whole_file_witness :
  exists ws,
    run_conversion (Slices.argv_for "1.0")
      (fun _ => Some ("# 1.0.1" ++ nl ++ "- patch" ++ nl ++ "# 1.0" ++ nl
                      ++ "- fix")%string)
    = Finished {| printed := []; target_file := Some ws |}
    /\ Lines.join ws
       = ("# 1.0.1" ++ nl ++ "- patch" ++ nl ++ "# 1.0" ++ nl ++ "- fix")%string.
Proof.
  apply (run_conversion_whole_file _ _ _ _ _ _ _ ("# 1.0.1" ++ nl)%string).
  - reflexivity.
  - reflexivity.
  - reflexivity.
  - vm_compute.
    repeat (apply Forall_cons; [first [left; reflexivity | right; reflexivity]|]).
    apply Forall_nil.
Defined.

(** ** The generated text as JSON *)

Import Json Documents.

Section Numerals.

Local Open Scope string_scope.

Lemma option_map_app_nil {A : Type} (o : option (list A)) :
  option_map (app []) o = o.
Proof. destruct o; reflexivity. Qed.

Lemma lex_uint (d : Decimal.uint) :
  forall sign n rest,
    lex (NilEmpty.string_of_uint d ++ rest) (InNum sign n) =
    lex rest (InNum sign (uint_acc d n)).
Proof.
  induction d; intros sign n rest; cbn [NilEmpty.string_of_uint uint_acc];
    [reflexivity | ..]; cbn [String.append lex]; apply IHd.
Qed.

Lemma lex_uint_in_string (d : Decimal.uint) :
  forall acc rest,
    lex (NilEmpty.string_of_uint d ++ rest) (InStr acc) =
    lex rest (InStr (acc ++ NilEmpty.string_of_uint d)).
Proof.
  induction d; intros acc rest; cbn [NilEmpty.string_of_uint];
    [now rewrite append_nil_r | ..];
    cbn [String.append lex]; rewrite IHd, append_assoc; reflexivity.
Qed.

End Numerals.

Section NumeralsOfStr.

Local Open Scope string_scope.

Lemma uint_acc_pos (d : Decimal.uint) :
  forall acc, Z.pos (Pos.of_uint_acc d acc) = uint_acc d (Z.pos acc).
Proof.
  induction d; intros acc; cbn [Pos.of_uint_acc uint_acc];
    [reflexivity | ..]; rewrite IHd; f_equal; lia.
Qed.

Lemma uint_acc_of_uint (d : Decimal.uint) :
  uint_acc d 0 = Z.of_N (Pos.of_uint d).
Proof.
  induction d; cbn [Pos.of_uint uint_acc Z.of_N];
    [reflexivity | exact IHd | ..];
    rewrite uint_acc_pos; reflexivity.
Qed.

Lemma uint_acc_to_uint (p : positive) : uint_acc (Pos.to_uint p) 0 = Z.pos p.
Proof. now rewrite uint_acc_of_uint, DecimalPos.Unsigned.of_to. Qed.

(** The digits of a positive number, read where a number may start. *)
Lemma lex_uint_start (d : Decimal.uint) (sign : Z) (m : mode) :
  d <> Decimal.Nil ->
  (m = Between /\ sign = 1) \/ (m = Minus /\ sign = -1) ->
  forall rest,
    lex (NilEmpty.string_of_uint d ++ rest) m =
    lex rest (InNum sign (uint_acc d 0)).
Proof.
  intros Hd [[-> ->]|[-> ->]] rest; destruct d; try congruence;
    cbn [NilEmpty.string_of_uint String.append lex uint_acc];
    try (match goal with
         | |- context [start ?c] =>
             let v := eval vm_compute in (start c) in change (start c) with v
         end; cbv iota; rewrite option_map_app_nil);
    apply lex_uint.
Qed.

Lemma string_of_uint_nonnil (d : Decimal.uint) :
  d <> Decimal.Nil ->
  NilZero.string_of_uint d = NilEmpty.string_of_uint d.
Proof. destruct d; [congruence | reflexivity ..]. Qed.

Lemma lex_end_of_number (sign n : Z) (c : ascii) (rest : string) :
  digit_of c = None ->
  lex (String c rest) (InNum sign n) =
  match start c with
  | Some (ts, m) =>
      option_map (fun r => TNum (sign * n) :: ts ++ r) (lex rest m)
  | None => None
  end.
Proof. intros H. cbn [lex]. rewrite H. reflexivity. Qed.

(** What [str] prints for an integer is read back as this integer. *)
Lemma numeral_str (z : Z) : numeral (str z) z.
Proof.
  unfold str. destruct z as [|p|p]; cbn [Z.to_int NilZero.string_of_int].
  - split.
    + intros c rest Hc. cbn [NilZero.string_of_uint
                               NilEmpty.string_of_uint String.append].
      change (lex (String "0" (String c rest)) Between)
        with (option_map (app [])
                (lex (String c rest) (InNum 1 0))).
      rewrite option_map_app_nil. apply (lex_end_of_number 1 0 c rest Hc).
    + intros acc rest. apply (lex_uint_in_string (Decimal.D0 Decimal.Nil)).
  - pose proof (DecimalPos.Unsigned.to_uint_nonnil p) as Hd.
    rewrite (string_of_uint_nonnil _ Hd). split.
    + intros c rest Hc.
      rewrite (lex_uint_start _ 1 Between Hd) by (now left).
      rewrite uint_acc_to_uint, (lex_end_of_number _ _ _ _ Hc).
      reflexivity.
    + intros acc rest. apply lex_uint_in_string.
  - pose proof (DecimalPos.Unsigned.to_uint_nonnil p) as Hd.
    rewrite (string_of_uint_nonnil _ Hd). split.
    + intros c rest Hc. cbn [String.append].
      change (lex (String "-" (NilEmpty.string_of_uint (Pos.to_uint p)
                               ++ String c rest)) Between)
        with (option_map (app [])
                (lex (NilEmpty.string_of_uint (Pos.to_uint p)
                      ++ String c rest) Minus)).
      rewrite option_map_app_nil.
      rewrite (lex_uint_start _ (-1) Minus Hd) by (now right).
      rewrite uint_acc_to_uint, (lex_end_of_number _ _ _ _ Hc).
      reflexivity.
    + intros acc rest. cbn [String.append lex].
      rewrite lex_uint_in_string, append_assoc. reflexivity.
Qed.

End NumeralsOfStr.

(** The fixed characters at the head of a text, and what follows them. *)
Ltac fixed_head s :=
  lazymatch s with
  | String ?c ?s' =>
      let r := fixed_head s' in
      lazymatch r with
      | (?p, ?x) => constr:((String c p, x))
      end
  | _ => constr:((EmptyString, s))
  end.

Section RecordTokens.

Local Open Scope string_scope.

(** A text read piece by piece. *)
Lemma lex_scan (s : string) :
  forall m rest,
    lex (s ++ rest) m =
    match scan s m with
    | Some (ts, m') => option_map (app ts) (lex rest m')
    | None => None
    end.
Proof.
  induction s as [|c s IH]; intros m rest.
  - cbn. now rewrite option_map_app_nil.
  - cbn [String.append lex scan]. destruct m as [|acc| |sign n].
    + destruct (start c) as [[ts m']|]; [|reflexivity].
      rewrite IH. destruct (scan s m') as [[ts' m'']|]; [|reflexivity].
      cbn [option_map fst snd].
      destruct (lex rest m''); cbn [option_map]; [|reflexivity].
      now rewrite app_assoc.
    + destruct (Ascii.eqb c (ascii_of_nat 34)).
      * rewrite IH. destruct (scan s Between) as [[ts' m'']|]; [|reflexivity].
        cbn [option_map fst snd].
        destruct (lex rest m''); reflexivity.
      * destruct (Ascii.eqb c (ascii_of_nat 92)); [reflexivity | apply IH].
    + destruct (digit_of c); [apply IH | reflexivity].
    + destruct (digit_of c); [apply IH|].
      destruct (start c) as [[ts m']|]; [|reflexivity].
      rewrite IH. destruct (scan s m') as [[ts' m'']|]; [|reflexivity].
      cbn [option_map fst snd].
      destruct (lex rest m''); cbn [option_map]; [|reflexivity].
      cbn [app]. now rewrite app_assoc.
Qed.

Ltac read_fixed :=
  lazymatch goal with
  | |- context [lex (String ?c ?s) ?m] =>
      let r := fixed_head (String c s) in
      lazymatch r with
      | (?p, ?x) =>
          change (lex (String c s) m) with (lex (p ++ x) m);
          rewrite (lex_scan p m x);
          let v := eval vm_compute in (scan p m) in
          replace (scan p m) with v by (vm_compute; reflexivity);
          cbv beta iota
      end
  end.

Ltac read_numeral :=
  lazymatch goal with
  | H : numeral ?s _ |- context [lex (?s ++ String ?c ?rest) Between] =>
      rewrite (proj1 H c rest eq_refl);
      let v := eval vm_compute in (start c) in
      change (start c) with v; cbv beta iota
  | H : numeral ?s _ |- context [lex (?s ++ ?rest) (InStr ?acc)] =>
      rewrite (proj2 H acc rest)
  end.

Ltac read_text :=
  unfold text, q, nl, dq; cbn [String.concat];
  repeat (rewrite !append_assoc; cbn [String.append]);
  repeat first [read_fixed | read_numeral].

Ltac same_tokens :=
  match goal with
  | |- context [lex ?rest Between] => destruct (lex rest Between)
  end; reflexivity.

Lemma lex_plain_record (t la lo ac : Z) (rest : string) :
  lex (Records.plain_record t la lo ac ++ rest) Between =
  option_map
    (app (inner_tokens
            [("timestampMs", Str (str t)); ("latitudeE7", Num la);
             ("longitudeE7", Num lo); ("accuracy", Num ac)]))
    (lex rest Between).
Proof.
  unfold Records.plain_record.
  pose proof (numeral_str t) as Ht. pose proof (numeral_str la) as Hla.
  pose proof (numeral_str lo) as Hlo. pose proof (numeral_str ac) as Hac.
  revert Ht Hla Hlo Hac.
  generalize (str t) (str la) (str lo) (str ac). intros st sla slo sac.
  intros Ht Hla Hlo Hac.
  read_text. same_tokens.
Qed.

Lemma lex_altitude_record (t la lo ac al va : Z) (rest : string) :
  lex (Records.altitude_record t la lo ac al va ++ rest) Between =
  option_map
    (app (inner_tokens
            [("timestampMs", Str (str t)); ("latitudeE7", Num la);
             ("longitudeE7", Num lo); ("accuracy", Num ac);
             ("altitude", Num al); ("verticalAccuracy", Num va)]))
    (lex rest Between).
Proof.
  unfold Records.altitude_record.
  pose proof (numeral_str t) as Ht. pose proof (numeral_str la) as Hla.
  pose proof (numeral_str lo) as Hlo. pose proof (numeral_str ac) as Hac.
  pose proof (numeral_str al) as Hal. pose proof (numeral_str va) as Hva.
  revert Ht Hla Hlo Hac Hal Hva.
  generalize (str t) (str la) (str lo) (str ac) (str al) (str va).
  intros st sla slo sac sal sva Ht Hla Hlo Hac Hal Hva.
  read_text. same_tokens.
Qed.

Lemma lex_activity_record (t la lo ac ta : Z) (rest : string) :
  lex (Spec.activity_record t la lo ac ta ++ rest) Between =
  option_map
    (app (inner_tokens
            [("timestampMs", Str (str t)); ("latitudeE7", Num la);
             ("longitudeE7", Num lo); ("accuracy", Num ac);
             ("activity",
              Arr [Obj [("timestampMs", Str (str ta));
                        ("activity",
                         Arr (map activity_value Spec.activities))]])]))
    (lex rest Between).
Proof.
  unfold Spec.activity_record.
  pose proof (numeral_str t) as Ht. pose proof (numeral_str la) as Hla.
  pose proof (numeral_str lo) as Hlo. pose proof (numeral_str ac) as Hac.
  pose proof (numeral_str ta) as Hta.
  revert Ht Hla Hlo Hac Hta.
  generalize (str t) (str la) (str lo) (str ac) (str ta).
  intros st sla slo sac sta Ht Hla Hlo Hac Hta.
  let e := eval vm_compute in
             (String.concat "}, {" (map Spec.activity_entry Spec.activities))
  in change (String.concat "}, {" (map Spec.activity_entry Spec.activities))
       with e.
  read_text. same_tokens.
Qed.

Lemma lex_fixed (p : string) (ts : list token) (rest : string) :
  scan p Between = Some (ts, Between) ->
  lex (p ++ rest) Between = option_map (app ts) (lex rest Between).
Proof. intros H. now rewrite lex_scan, H. Qed.

End RecordTokens.

(** The record of an index, read: the tokens of its members. *)
Lemma shape_of_nth (i : Z) (s : Spec.shape) :
  nth_error Spec.patterns (Z.to_nat (i mod 6)) = Some s -> shape_of i = s.
Proof. intros H. unfold shape_of. now apply nth_error_nth. Qed.

Lemma lex_record (cfg : config) (i : Z) (rest : string) :
  lex (record cfg i ++ rest) Between =
  option_map (app (inner_tokens (record_members cfg (shape_of i) i)))
    (lex rest Between).
Proof.
  unfold record. destruct (render_shape cfg i) as (s & Hs & ->).
  rewrite (shape_of_nth i s Hs).
  destruct s; cbn [Records.record_of_shape record_members common_members app].
  - apply lex_plain_record.
  - apply lex_altitude_record.
  - apply lex_activity_record.
Qed.

(** What follows the lead-in, read: the stream of the records. *)
Lemma lex_loop_writes (cfg : config) (ixs : list Z) :
  lex (Lines.join (loop_writes cfg ixs ++ [lead_out])) Between =
  Some (stream cfg ixs).
Proof.
  induction ixs as [|i ixs IH].
  - vm_compute. reflexivity.
  - change (loop_writes cfg (i :: ixs))
      with (record cfg i :: separator :: loop_writes cfg ixs).
    cbn [app]. rewrite !join_cons, lex_record.
    rewrite (lex_fixed separator [RBrace; Comma; LBrace])
      by (vm_compute; reflexivity).
    rewrite IH. reflexivity.
Qed.

(** *** Parsing the tokens *)

(** The object of a record, parsed: with as much fuel as it has tokens,
    the members come back and the tokens after the closing brace are
    left. *)
Lemma parse_record (cfg : config) (i : Z) (fuel : nat) (rest : list token) :
  (List.length (inner_tokens (record_members cfg (shape_of i) i)) <= fuel)%nat ->
  parse_value fuel
    (LBrace :: inner_tokens (record_members cfg (shape_of i) i)
            ++ RBrace :: rest)
  = Some (record_value cfg i, rest).
Proof.
  unfold record_value.
  destruct (shape_of i);
    cbn [record_members common_members app];
    generalize (str (time cfg i)) (round (latitude_rule i))
      (round (longitude_rule i)) (accuracy_rule i)
      (round (altitude_rule i)) (vertical_accuracy_rule i)
      (str (time_activity cfg i));
    intros st la lo ac al va sta H.
  - change (15 <= fuel)%nat in H.
    replace fuel with (15 + (fuel - 15))%nat by lia. reflexivity.
  - change (23 <= fuel)%nat in H.
    replace fuel with (23 + (fuel - 23))%nat by lia. reflexivity.
  - vm_compute in H.
    replace fuel with (59 + (fuel - 59))%nat by lia. reflexivity.
Qed.

Lemma stream_cons (cfg : config) (i : Z) (ixs : list Z) :
  stream cfg (i :: ixs) =
  inner_tokens (record_members cfg (shape_of i) i)
  ++ RBrace :: Comma :: LBrace :: stream cfg ixs.
Proof. reflexivity. Qed.

(** The elements of the array, parsed one after the other: the records,
    and the empty object that the last separator opens. *)
Lemma parse_stream (cfg : config) (ixs : list Z) :
  forall (acc : list value) (fuel : nat),
    (List.length (stream cfg ixs) <= fuel)%nat ->
    match parse_value fuel (LBrace :: stream cfg ixs) with
    | Some (v, ts) => parse_elements fuel (v :: acc) ts
    | None => None
    end
    = Some (Arr (rev acc ++ map (record_value cfg) ixs ++ [Obj []]),
            [RBrace]).
Proof.
  induction ixs as [|i ixs IH]; intros acc fuel H.
  - cbn [stream List.length] in H.
    destruct fuel as [|fuel]; [lia|]. reflexivity.
  - rewrite stream_cons in *. rewrite length_app in H. cbn [List.length] in H.
    rewrite parse_record by lia.
    destruct fuel as [|fuel]; [lia|].
    change (parse_elements (S fuel) (record_value cfg i :: acc)
              (Comma :: LBrace :: stream cfg ixs))
      with (match parse_value fuel (LBrace :: stream cfg ixs) with
            | Some (v, ts) =>
                parse_elements fuel (v :: record_value cfg i :: acc) ts
            | None => None
            end).
    rewrite IH by lia. cbn [rev map]. rewrite <- !app_assoc. reflexivity.
Qed.

(** An object with one member whose value is an array that begins with an
    object: the elements are parsed, then the member is closed. *)
Lemma parse_document (k : string) (fuel : nat) (s : list token) :
  parse_value (S (S fuel))
    (LBrace :: TStr k :: Colon :: LBracket :: LBrace :: s)
  = match
      match parse_value fuel (LBrace :: s) with
      | Some (v, ts) => parse_elements fuel [v] ts
      | None => None
      end
    with
    | Some (v, ts) => parse_members (S fuel) [(k, v)] ts
    | None => None
    end.
Proof. reflexivity. Qed.

(** X20: for every [nr_points >= 0] the text written is JSON: one object
    with the one key [locations], whose array holds the records of the
    indices 0 to [nr_points - 1], each with the members of its shape, and
    after them one empty object: [nr_points + 1] elements. *)
Theorem generate_json (cfg : config) :
  0 <= nr_points cfg ->
  exists st : GenerateGoogleJson.state,
    generate cfg = Some (Finished st)
    /\ Json.parse (contents st)
       = Some (document cfg (Z.to_nat (nr_points cfg))).
Proof.
  intros Hn. eexists. split; [apply generate_writes, Hn|].
  unfold contents, Json.parse. cbn [file app].
  fold (Lines.join (lead_in :: loop_writes cfg
                      (indices 0 (Z.to_nat (nr_points cfg))) ++ [lead_out])).
  rewrite join_cons.
  rewrite (lex_fixed lead_in
             [LBrace; TStr "locations"; Colon; LBracket; LBrace])
    by (vm_compute; reflexivity).
  rewrite lex_loop_writes. cbn [option_map app List.length].
  set (ixs := indices 0 (Z.to_nat (nr_points cfg))).
  rewrite parse_document.
  rewrite parse_stream by lia.
  cbn [parse_members rev app]. unfold document. do 5 f_equal.
  unfold ixs. rewrite indices_seq, map_map. reflexivity.
Qed.

Lemma generate_json_witness :
  exists st : GenerateGoogleJson.state,
    generate (with_nr_points 2 default) = Some (Finished st)
    /\ Json.parse (contents st)
       = Some (document (with_nr_points 2 default) 2).
Proof. apply (generate_json (with_nr_points 2 default)). simpl. lia. Defined.

(** ** More on the slicer and the lister *)

(** X21: arguments after the version are ignored. *)
Theorem run_conversion_extra_arguments (prog source target version : string)
    (extra : list string) (fs : files) :
  run_conversion (prog :: source :: target :: version :: extra) fs =
  run_conversion [prog; source; target; version] fs.
Proof.
  destruct (fs source) as [content|] eqn:Hfs.
  - now rewrite !(run_conversion_loop _ _ _ _ _ _ content Hfs).
  - now rewrite !run_conversion_no_source by exact Hfs.
Qed.

(** The order of [sorted] is transitive. *)
Lemma leb_trans (a : string) :
  forall b c,
    String.leb a b = true -> String.leb b c = true -> String.leb a c = true.
Proof.
  induction a as [|x a IH]; intros b c Hab Hbc.
  - destruct c; reflexivity.
  - destruct b as [|y b]; [discriminate Hab|].
    destruct c as [|z c]; [discriminate Hbc|].
    unfold String.leb in Hab, Hbc |- *. cbn [String.compare] in *.
    unfold Ascii.compare in *.
    destruct (N.compare_spec (N_of_ascii x) (N_of_ascii y)) as [Exy|Lxy|Gxy];
      [| |discriminate Hab];
      destruct (N.compare_spec (N_of_ascii y) (N_of_ascii z)) as [Eyz|Lyz|Gyz];
      try discriminate Hbc;
      destruct (N.compare_spec (N_of_ascii x) (N_of_ascii z)) as [Exz|Lxz|Gxz];
      try reflexivity; try lia.
    apply (IH b c); assumption.
Qed.

Lemma sorted_strongly (l : list string) :
  Sorted Keys.leq l -> StronglySorted Keys.leq l.
Proof.
  apply Sorted_StronglySorted. intros a b c. apply leb_trans.
Qed.

(** Two ascending lists without repetition that have the same elements are
    the same list. *)
Lemma ascending_unique (l1 : list string) :
  forall l2,
    StronglySorted Keys.leq l1 -> StronglySorted Keys.leq l2 ->
    NoDup l1 -> NoDup l2 ->
    (forall x, In x l1 <-> In x l2) ->
    l1 = l2.
Proof.
  induction l1 as [|a l1 IH]; intros l2 S1 S2 N1 N2 H.
  - destruct l2 as [|b l2]; [reflexivity|].
    destruct (proj2 (H b) (or_introl eq_refl)).
  - destruct l2 as [|b l2]; [destruct (proj1 (H a) (or_introl eq_refl))|].
    apply StronglySorted_inv in S1 as [S1 F1].
    apply StronglySorted_inv in S2 as [S2 F2].
    inversion N1 as [|? ? Na N1']; subst.
    inversion N2 as [|? ? Nb N2']; subst.
    rewrite Forall_forall in F1, F2.
    assert (a = b) as ->.
    { destruct (proj1 (H a) (or_introl eq_refl)) as [E|Ia]; [now symmetry|].
      destruct (proj2 (H b) (or_introl eq_refl)) as [E|Ib]; [exact E|].
      apply String.leb_antisym; [apply F1, Ib | apply F2, Ia]. }
    f_equal. apply IH; try assumption.
    intros x. split; intros Hx.
    + destruct (proj1 (H x) (or_intror Hx)) as [E|I]; [|exact I].
      subst. contradiction.
    + destruct (proj2 (H x) (or_intror Hx)) as [E|I]; [|exact I].
      subst. contradiction.
Qed.

(** X22: what the lister prints does not depend on the order of the lines
    of the file nor on how often a first word occurs: two files in which
    the same names occur as first match of a line give the same output. *)
Theorem names_order_independent (word : ascii -> bool)
    (content1 content2 : string) :
  (forall name, Keys.first_word_in word content1 name
                <-> Keys.first_word_in word content2 name) ->
  Keys.names_of word content1 = Keys.names_of word content2.
Proof.
  intros H.
  apply ascending_unique.
  - apply sorted_strongly, names_of_ascending.
  - apply sorted_strongly, names_of_ascending.
  - apply names_of_ascending.
  - apply names_of_ascending.
  - intros x. rewrite !names_of_in. apply H.
Qed.

Lemma names_order_independent_witness :
  Keys.names_of ascii_word ("b" ++ nl ++ "a" ++ nl)%string =
  Keys.names_of ascii_word ("a" ++ nl ++ "b" ++ nl ++ "a" ++ nl)%string.
Proof.
  apply names_order_independent.
  intros name; split; intros (line & Hin & Hw); exists line;
    (split; [|exact Hw]); vm_compute in Hin |- *; tauto.
Defined.

(** ** The key lister on a generated file *)

Import Words.

Section FirstWords.

Variable cls : ascii -> bool.

Local Notation "'knows'" := (Words.knows cls) (only parsing).

Lemma knows_start : knows EmptyString (Before EmptyString).
Proof. intros x. reflexivity. Qed.

Lemma knows_step (line : string) (st : wstate) (c : ascii) :
  knows line st -> knows (line ++ String c EmptyString) (step cls st c).
Proof.
  intros H x. rewrite append_assoc. cbn [String.append]. rewrite H.
  destruct st as [run|w]; [|reflexivity].
  cbn [close step findall_from]. destruct (cls c); [reflexivity|].
  destruct run; reflexivity.
Qed.

Lemma first_words_lines (s : string) :
  forall line st,
    knows line st ->
    flat_map (first_of cls) (readlines_from s line) = first_words cls s st.
Proof.
  unfold first_words.
  induction s as [|c s IH]; intros line st H;
    cbn [readlines_from scan_words fst snd].
  - cbn [app]. rewrite <- (H EmptyString), append_nil_r.
    destruct line; [reflexivity|]. cbn [flat_map]. now rewrite app_nil_r.
  - destruct (is_newline c).
    + cbn [flat_map fst snd]. rewrite (IH _ _ knows_start), H, <- app_assoc.
      reflexivity.
    + apply IH, knows_step, H.
Qed.

Lemma scan_words_app (a : string) :
  forall b st,
    scan_words cls (a ++ b) st =
    (fst (scan_words cls a st)
       ++ fst (scan_words cls b (snd (scan_words cls a st))),
     snd (scan_words cls b (snd (scan_words cls a st)))).
Proof.
  induction a as [|c a IH]; intros b st; cbn [String.append scan_words].
  - cbn [fst snd app]. now destruct (scan_words cls b st).
  - destruct (is_newline c).
    + rewrite IH. cbn [fst snd]. now rewrite app_assoc.
    + apply IH.
Qed.

Lemma scan_words_prepend (a b : string) (st : wstate) :
  scan_words cls (a ++ b) st =
  prepend (fst (scan_words cls a st))
    (scan_words cls b (snd (scan_words cls a st))).
Proof. apply scan_words_app. Qed.

Lemma first_words_app (a b : string) (st : wstate) :
  first_words cls (a ++ b) st =
  fst (scan_words cls a st) ++ first_words cls b (snd (scan_words cls a st)).
Proof.
  unfold first_words. rewrite scan_words_app. cbn [fst snd].
  now rewrite app_assoc.
Qed.

(** Past the first match of a line, a text without a newline changes
    nothing. *)
Lemma scan_words_done (s : string) (w : string) (rest : string) :
  Lines.no_newline s = true ->
  scan_words cls (s ++ rest) (Done w) = scan_words cls rest (Done w).
Proof.
  induction s as [|c s IH]; intros H; [reflexivity|].
  cbn in H. apply andb_prop in H as [Hc Hs]. apply negb_true_iff in Hc.
  cbn [String.append scan_words]. rewrite Hc. apply IH, Hs.
Qed.

End FirstWords.

Lemma no_newline_uint (d : Decimal.uint) :
  Lines.no_newline (NilEmpty.string_of_uint d) = true.
Proof. induction d; [reflexivity | exact IHd ..]. Qed.

Lemma no_newline_str (z : Z) : Lines.no_newline (str z) = true.
Proof.
  unfold str. destruct z as [|p|p]; cbn [Z.to_int NilZero.string_of_int].
  - reflexivity.
  - rewrite string_of_uint_nonnil by apply DecimalPos.Unsigned.to_uint_nonnil.
    apply no_newline_uint.
  - rewrite string_of_uint_nonnil by apply DecimalPos.Unsigned.to_uint_nonnil.
    apply no_newline_uint.
Qed.

(** The names the lister collects are the first words of the lines. *)
Lemma names_of_first_words (word : ascii -> bool) (content name : string) :
  In name (Keys.names_of word content) <->
  In name (first_words word content (Before EmptyString)).
Proof.
  rewrite names_of_in.
  rewrite <- (first_words_lines word content EmptyString _ (knows_start word)).
  fold (readlines content). rewrite in_flat_map.
  split; intros (line & Hin & Hw); exists line; (split; [exact Hin|]).
  - unfold first_of. destruct (findall word line); [discriminate Hw|].
    injection Hw as ->. now left.
  - unfold first_of in Hw. destruct (findall word line) as [|w m]; [destruct Hw|].
    destruct Hw as [->|[]]. reflexivity.
Qed.

Section GeneratedWords.

Local Open Scope string_scope.

Local Notation "'scan'" := (scan_words ascii_word) (only parsing).

Lemma scan_newline (rest : string) (st : wstate) :
  scan (String (ascii_of_nat 10) rest) st =
  prepend (close ascii_word st nl) (scan rest (Before EmptyString)).
Proof. reflexivity. Qed.

Ltac words_fixed :=
  lazymatch goal with
  | |- context [scan_words ascii_word (String ?c ?s) ?st] =>
      let r := fixed_head (String c s) in
      lazymatch r with
      | (?p, ?x) =>
          change (scan_words ascii_word (String c s) st)
            with (scan_words ascii_word (p ++ x) st);
          rewrite (scan_words_prepend ascii_word p x st);
          let v := eval vm_compute in (scan_words ascii_word p st) in
          replace (scan_words ascii_word p st) with v
            by (vm_compute; reflexivity);
          cbn [fst snd]
      end
  end.

Ltac words_numeral :=
  lazymatch goal with
  | H : Lines.no_newline ?s = true
    |- context [scan_words ascii_word (?s ++ ?rest) (Done ?w)] =>
      rewrite (scan_words_done ascii_word s w rest H)
  end.

Ltac words_text :=
  unfold text, q, nl, dq; cbn [String.concat];
  repeat (rewrite !append_assoc; cbn [String.append]);
  rewrite scan_newline;
  repeat first [words_fixed | words_numeral].

Lemma words_plain_record (t la lo ac : Z) (st : wstate) :
  scan (Records.plain_record t la lo ac) st =
  ((close ascii_word st nl ++ shape_words Spec.plain)%list,
   Before EmptyString).
Proof.
  unfold Records.plain_record.
  pose proof (no_newline_str t) as Ht. pose proof (no_newline_str la) as Hla.
  pose proof (no_newline_str lo) as Hlo. pose proof (no_newline_str ac) as Hac.
  revert Ht Hla Hlo Hac.
  generalize (str t) (str la) (str lo) (str ac).
  intros s1 s2 s3 s4 Ht Hla Hlo Hac.
  words_text. reflexivity.
Qed.

Lemma words_altitude_record (t la lo ac al va : Z) (st : wstate) :
  scan (Records.altitude_record t la lo ac al va) st =
  ((close ascii_word st nl ++ shape_words Spec.altitude)%list,
   Before EmptyString).
Proof.
  unfold Records.altitude_record.
  pose proof (no_newline_str t) as Ht. pose proof (no_newline_str la) as Hla.
  pose proof (no_newline_str lo) as Hlo. pose proof (no_newline_str ac) as Hac.
  pose proof (no_newline_str al) as Hal. pose proof (no_newline_str va) as Hva.
  revert Ht Hla Hlo Hac Hal Hva.
  generalize (str t) (str la) (str lo) (str ac) (str al) (str va).
  intros s1 s2 s3 s4 s5 s6 Ht Hla Hlo Hac Hal Hva.
  words_text. reflexivity.
Qed.

Lemma words_activity_record (t la lo ac ta : Z) (st : wstate) :
  scan (Spec.activity_record t la lo ac ta) st =
  ((close ascii_word st nl ++ shape_words Spec.activity)%list,
   Before EmptyString).
Proof.
  unfold Spec.activity_record.
  pose proof (no_newline_str t) as Ht. pose proof (no_newline_str la) as Hla.
  pose proof (no_newline_str lo) as Hlo. pose proof (no_newline_str ac) as Hac.
  pose proof (no_newline_str ta) as Hta.
  revert Ht Hla Hlo Hac Hta.
  generalize (str t) (str la) (str lo) (str ac) (str ta).
  intros s1 s2 s3 s4 s5 Ht Hla Hlo Hac Hta.
  let e := eval vm_compute in
             (String.concat "}, {" (map Spec.activity_entry Spec.activities))
  in change (String.concat "}, {" (map Spec.activity_entry Spec.activities))
       with e.
  words_text. reflexivity.
Qed.

End GeneratedWords.

Lemma words_record (cfg : config) (i : Z) (st : wstate) :
  scan_words ascii_word (record cfg i) st =
  (close ascii_word st nl ++ shape_words (shape_of i), Before EmptyString).
Proof.
  unfold record. destruct (render_shape cfg i) as (s & Hs & ->).
  rewrite (shape_of_nth i s Hs).
  destruct s; cbn [Records.record_of_shape].
  - apply words_plain_record.
  - apply words_altitude_record.
  - apply words_activity_record.
Qed.

(** The first words of what follows the lead-in. *)
Lemma words_loop_writes (cfg : config) (ixs : list Z) :
  forall st,
    first_words ascii_word (Lines.join (loop_writes cfg ixs ++ [lead_out])) st
    = close ascii_word st nl ++ flat_map (fun i => shape_words (shape_of i)) ixs.
Proof.
  induction ixs as [|i ixs IH]; intros st.
  - cbn [loop_writes flat_map app]. unfold Lines.join. cbn [String.concat].
    unfold first_words.
    unfold lead_out, text, nl. cbn [String.concat String.append].
    rewrite scan_newline. unfold prepend. cbn [fst snd].
    rewrite <- app_assoc. reflexivity.
  - change (loop_writes cfg (i :: ixs))
      with (record cfg i :: separator :: loop_writes cfg ixs).
    cbn [app flat_map]. rewrite !join_cons, first_words_app, words_record.
    cbn [fst snd]. rewrite first_words_app.
    replace (scan_words ascii_word separator (Before EmptyString))
      with (@nil string, Before EmptyString) by (vm_compute; reflexivity).
    cbn [fst snd app]. rewrite IH, <- !app_assoc. reflexivity.
Qed.

(** The first words of the lines of a generated file. *)
Lemma words_generated (cfg : config) (ixs : list Z) :
  first_words ascii_word
    (Lines.join (lead_in :: loop_writes cfg ixs ++ [lead_out]))
    (Before EmptyString)
  = "locations"%string :: flat_map (fun i => shape_words (shape_of i)) ixs.
Proof.
  rewrite join_cons, first_words_app.
  replace (scan_words ascii_word lead_in (Before EmptyString))
    with (@nil string, Done "locations") by (vm_compute; reflexivity).
  cbn [fst snd app]. rewrite words_loop_writes. reflexivity.
Qed.

Lemma generated_keys_ascending : Sorted Keys.leq generated_keys.
Proof.
  unfold generated_keys.
  repeat (apply Sorted_cons; [|first [apply HdRel_nil
                                     | apply HdRel_cons; reflexivity]]).
  apply Sorted_nil.
Qed.

Lemma generated_keys_nodup : NoDup generated_keys.
Proof.
  unfold generated_keys.
  repeat (apply NoDup_cons;
          [cbn [In]; intros H;
           repeat (destruct H as [H|H]; [discriminate H|]); exact H|]).
  apply NoDup_nil.
Qed.

Lemma shape_words_keys (s : Spec.shape) (x : string) :
  In x (shape_words s) -> In x generated_keys.
Proof.
  destruct s; cbn [shape_words In generated_keys]; intros H;
    repeat (destruct H as [<-|H]; [tauto|]); destruct H.
Qed.

Lemma indices_in (k : nat) (j : nat) :
  (j < k)%nat -> In (Z.of_nat j) (indices 0 k).
Proof.
  intros H. rewrite indices_seq. apply in_map_iff. exists j.
  split; [reflexivity|]. apply in_seq. lia.
Qed.

(** With six records or more, every key occurs as first word of a line. *)
Lemma generated_words_keys (ixs : list Z) (x : string) :
  In 0 ixs -> In 2 ixs -> In 5 ixs ->
  In x ("locations"%string :: flat_map (fun i => shape_words (shape_of i)) ixs)
  <-> In x generated_keys.
Proof.
  intros H0 H2 H5. split.
  - intros [<-|H]; [cbn; tauto|].
    apply in_flat_map in H as (i & _ & H). eapply shape_words_keys, H.
  - intros H.
    assert (forall i, In i ixs -> In x (shape_words (shape_of i)) ->
                      In x (flat_map (fun i => shape_words (shape_of i)) ixs))
      as Hin by (intros i Hi Hx; apply in_flat_map; now exists i).
    cbn [generated_keys In] in H.
    destruct H as [<-|[<-|[<-|[<-|[<-|[<-|[<-|[<-|[<-|[<-|[]]]]]]]]]]];
      first [ now left
            | right; apply (Hin 0 H0); vm_compute;
              repeat (first [left; reflexivity | right]); fail
            | right; apply (Hin 2 H2); vm_compute;
              repeat (first [left; reflexivity | right]); fail
            | right; apply (Hin 5 H5); vm_compute;
              repeat (first [left; reflexivity | right]); fail ].
Qed.

(** X23: the key lister, run on a file that the generator has written with
    six records or more, prints the ten keys of the records and of the
    document with their lengths, in ascending order. *)
Theorem key_lister_on_generated (cfg : config)
    (st : GenerateGoogleJson.state) (fs : files) :
  6 <= nr_points cfg ->
  generate cfg = Some (Finished st) ->
  fs "Locatiegeschiedenis.json"%string = Some (contents st) ->
  GoogleJsonUniqueKeys_tool.script ascii_word fs =
  Finished ["accuracy : 8"; "activity : 8"; "altitude : 8"; "confidence : 10";
            "latitudeE7 : 10"; "locations : 9"; "longitudeE7 : 11";
            "timestampMs : 11"; "type : 4"; "verticalAccuracy : 16"]%string.
Proof.
  intros Hn Hgen Hfs.
  rewrite (proj1 (script_prints ascii_word fs (contents st) Hfs)).
  replace (Keys.names_of ascii_word (contents st)) with generated_keys;
    [reflexivity|].
  symmetry. apply ascending_unique.
  - apply sorted_strongly, names_of_ascending.
  - apply sorted_strongly, generated_keys_ascending.
  - apply names_of_ascending.
  - apply generated_keys_nodup.
  - intros x. rewrite names_of_first_words.
    rewrite generate_writes in Hgen by lia. injection Hgen as <-.
    unfold contents. cbn [file app].
    fold (Lines.join (lead_in :: loop_writes cfg
                        (indices 0 (Z.to_nat (nr_points cfg))) ++ [lead_out])).
    rewrite words_generated.
    apply generated_words_keys.
    + apply (indices_in _ 0). lia.
    + apply (indices_in _ 2). lia.
    + apply (indices_in _ 5). lia.
Qed.

Lemma key_lister_on_generated_witness :
  GoogleJsonUniqueKeys_tool.script ascii_word
    (fun _ =>
       Some (contents
               {| file := [lead_in]
                          ++ loop_writes (with_nr_points 6 default)
                               (indices 0 6)
                          ++ [lead_out];
                  points_written := 6 |})) =
  Finished ["accuracy : 8"; "activity : 8"; "altitude : 8"; "confidence : 10";
            "latitudeE7 : 10"; "locations : 9"; "longitudeE7 : 11";
            "timestampMs : 11"; "type : 4"; "verticalAccuracy : 16"]%string.
Proof.
  apply (key_lister_on_generated (with_nr_points 6 default)
           {| file := [lead_in]
                      ++ loop_writes (with_nr_points 6 default) (indices 0 6)
                      ++ [lead_out];
              points_written := 6 |}).
  - simpl. lia.
  - apply (generate_writes (with_nr_points 6 default)). simpl. lia.
  - reflexivity.
Defined.
